(** * Medicine-reminder: the disease matcher and the reminder dispatchers

    A shallow embedding of [recommender.py], [scheduler.py] and of [app.py]
    (its reminder job and the routes that write to the store, [register]
    and [recommend]), with the properties of the specification proved (or
    refuted) over it, and further properties of the code.

    Conventions of the model.
    - A Python [str] is a [string]: a sequence of bytes.  [lower], [strip]
      and [capitalize] act on the ASCII range and leave every byte above 127
      unchanged.
    - A MongoDB document is a [gmap string value] next to its [_id]; the
      collection is the list of documents in natural order, and the store
      is available.  A value is [None], a boolean, an integer or a string.
    - [insert_one] gives the new document an [_id] not given before.  The
      [users] collection is a list of documents, or [None] without a
      database.
    - A cursor yields the documents as they were when it was opened: the
      only document a dispatcher updates is the one its loop holds.
    - [re.search] is modelled for the patterns of the sources: alternations
      of literals, and the empty pattern.
    - The SMTP server is an oracle: whether a send succeeds is a function of
      every earlier attempt and of the message.
    - [float] is the kernel's binary64, as Python's. *)

From Stdlib Require Import ZArith List Ascii String PrimFloat Uint63.
From Stdlib Require Import SpecFloat FloatOps FloatAxioms.
From stdpp Require Import base gmap list strings pretty.

Open Scope string_scope.

(** [0.1] and [0.3] stand for the nearest binary64 values, as in Python. *)
Set Warnings "-inexact-float".

(** ** Python strings *)

Module PyStr.

Definition chars (s : string) : list ascii := list_ascii_of_string s.
Definition text (l : list ascii) : string := string_of_list_ascii l.

Definition is_upper (c : ascii) : bool :=
  let n := nat_of_ascii c in (65 <=? n)%nat && (n <=? 90)%nat.

Definition is_lower (c : ascii) : bool :=
  let n := nat_of_ascii c in (97 <=? n)%nat && (n <=? 122)%nat.

(** [str.isspace] on one byte: TAB, LF, VT, FF, CR, FS, GS, RS, US, SPACE. *)
Definition is_space (c : ascii) : bool :=
  let n := nat_of_ascii c in
  ((9 <=? n)%nat && (n <=? 13)%nat) || ((28 <=? n)%nat && (n <=? 32)%nat).

Definition lower_char (c : ascii) : ascii :=
  if is_upper c then ascii_of_nat (nat_of_ascii c + 32) else c.

Definition upper_char (c : ascii) : ascii :=
  if is_lower c then ascii_of_nat (nat_of_ascii c - 32) else c.

(** [s.lower()] *)
Definition lower (s : string) : string := text (map lower_char (chars s)).

Fixpoint lstrip_chars (l : list ascii) : list ascii :=
  match l with
  | [] => []
  | c :: r => if is_space c then lstrip_chars r else l
  end.

(** [s.strip()] *)
Definition strip (s : string) : string :=
  text (rev (lstrip_chars (rev (lstrip_chars (chars s))))).

(** [s.capitalize()]: the first character upper-cased, the rest
    lower-cased. *)
Definition capitalize (s : string) : string :=
  match chars s with
  | [] => ""
  | c :: r => text (upper_char c :: map lower_char r)
  end.

Fixpoint starts_with (p s : list ascii) : bool :=
  match p, s with
  | [], _ => true
  | _ :: _, [] => false
  | a :: p', b :: s' => Ascii.eqb a b && starts_with p' s'
  end.

Fixpoint find_in (p s : list ascii) : bool :=
  starts_with p s ||
  match s with
  | [] => false
  | _ :: s' => find_in p s'
  end.

(** [needle in hay] *)
Definition contains (needle hay : string) : bool :=
  find_in (chars needle) (chars hay).

(** Truth value of a string: [not s] is [negb (truthy s)]. *)
Definition truthy (s : string) : bool := negb (String.eqb s "").

Definition nl : string := String (ascii_of_nat 10) "".

End PyStr.

(** ** [re.search] for alternations of literals *)

Module Re.

Fixpoint split_on (sep : ascii) (s : list ascii) : list (list ascii) :=
  match s with
  | [] => [[]]
  | c :: r =>
      if Ascii.eqb c sep then [] :: split_on sep r
      else match split_on sep r with
           | h :: t => (c :: h) :: t
           | [] => [[c]]
           end
  end.

(** The alternatives of a pattern [a1|a2|...|an]; the empty pattern has the
    one alternative [""]. *)
Definition alternatives (pattern : string) : list string :=
  map PyStr.text (split_on "|"%char (PyStr.chars pattern)).

(** [re.search(pattern, s) is not None]: some alternative occurs in [s]. *)
Definition search (pattern s : string) : bool :=
  existsb (fun lit => PyStr.contains lit s) (alternatives pattern).

End Re.

(** ** Python values held by a document *)

Inductive value : Type :=
| VNone
| VBool (b : bool)
| VInt (z : Z)
| VStr (s : string).

Definition value_eqb (a b : value) : bool :=
  match a, b with
  | VNone, VNone => true
  | VBool x, VBool y => Bool.eqb x y
  | VInt x, VInt y => Z.eqb x y
  | VBool x, VInt y => Z.eqb (if x then 1 else 0) y
  | VInt x, VBool y => Z.eqb x (if y then 1 else 0)
  | VStr x, VStr y => String.eqb x y
  | _, _ => false
  end.

Definition truthy (v : value) : bool :=
  match v with
  | VNone => false
  | VBool b => b
  | VInt z => negb (Z.eqb z 0)
  | VStr s => PyStr.truthy s
  end.

(** [a or b] *)
Definition py_or (a b : value) : value := if truthy a then a else b.

(** [str(v)] *)
Definition py_str (v : value) : string :=
  match v with
  | VNone => "None"
  | VBool true => "True"
  | VBool false => "False"
  | VInt z => pretty z
  | VStr s => s
  end.

(** A document of the [patients] collection. *)
Record patient : Type := { _id : nat; doc : gmap string value }.

(** [p.get(k)] and [p.get(k, d)] *)
Definition get (p : patient) (k : string) : value := default VNone (doc p !! k).
Definition get_or (p : patient) (k : string) (d : value) : value :=
  default d (doc p !! k).

(** ** The world of a dispatcher: collection, mail server, log *)

Record Mail : Type :=
  { mail_to : value; mail_subject : string; mail_body : string }.

(** One call of the SMTP server.  [att_for] is a ghost label: the [_id] of
    the record the message was composed from. *)
Record Attempt : Type := { att_for : nat; att_mail : Mail; att_ok : bool }.

(** One [update_one({"_id": i}, {"$set": {f: v}})]. *)
Record Write : Type := { w_id : nat; w_field : string; w_value : value }.

(** The lines the dispatchers log or print; the text of a caught exception is
    the environment's and is left out. *)
Inductive LogLine : Type :=
| LogRunning (period today : string)
| LogEmailSent (to : value)
| LogEmailFailed (to : value)
| LogSkipInvalid (name email : value)
| LogCompleted (period : string) (sent failed : nat)
| PrintSent (period : string) (to : value)
| PrintFailed (to : value)
| PrintCompleted (period : string) (sent : nat).

Record World : Type :=
  { patients_col : list patient;
    outbox : list Attempt;
    writes : list Write;
    log : list LogLine }.

(** The mail server: success as a function of the history and the message. *)
Definition Smtp : Type := list Attempt → Mail → bool.

Inductive exn : Type :=
| KeyError (k : string)
| AttributeError
| SMTPException
| ValueError
| IndexError.

Inductive Result (A : Type) : Type :=
| Ok (a : A)
| Raise (e : exn).
Arguments Ok {A} a.
Arguments Raise {A} e.

(** Computations over the world that return or raise. *)
Definition M (A : Type) : Type := World → Result A * World.

#[global] Instance M_ret : MRet M := λ A a w, (Ok a, w).
#[global] Instance M_bind : MBind M := λ A B k m w,
  match m w with
  | (Ok a, w') => k a w'
  | (Raise e, w') => (Raise e, w')
  end.

Definition raise {A : Type} (e : exn) : M A := λ w, (Raise e, w).

(** [try: m except Exception: h] *)
Definition try_except {A : Type} (m : M A) (h : exn → M A) : M A := λ w,
  match m w with
  | (Ok a, w') => (Ok a, w')
  | (Raise e, w') => h e w'
  end.

(** [for x in l: s = body(x, s)] *)
Fixpoint for_each {A S : Type} (l : list A) (body : A → S → M S) (s : S) : M S :=
  match l with
  | [] => mret s
  | x :: r => s' ← body x s; for_each r body s'
  end.

Definition emit (line : LogLine) : M () := λ w,
  (Ok (), {| patients_col := patients_col w; outbox := outbox w;
             writes := writes w; log := log w ++ [line] |}).

(** [patients_col.find({})] *)
Definition find_all : M (list patient) := λ w, (Ok (patients_col w), w).

Definition set_field (f : string) (v : value) (p : patient) : patient :=
  {| _id := _id p; doc := <[f := v]> (doc p) |}.

Fixpoint update_first (i : nat) (f : string) (v : value) (l : list patient)
  : list patient :=
  match l with
  | [] => []
  | p :: r =>
      if Nat.eqb (_id p) i then set_field f v p :: r
      else p :: update_first i f v r
  end.

(** [patients_col.update_one({"_id": i}, {"$set": {f: v}})] *)
Definition update_one (i : nat) (f : string) (v : value) : M () := λ w,
  (Ok (), {| patients_col := update_first i f v (patients_col w);
             outbox := outbox w;
             writes := writes w ++ [{| w_id := i; w_field := f; w_value := v |}];
             log := log w |}).

(** The body of [with smtplib.SMTP_SSL(...) as smtp: login; send_message]:
    the server answers, the attempt is on record, and a refusal raises. *)
Definition smtp_send (net : Smtp) (who : nat) (m : Mail) : M () := λ w,
  let ok := net (outbox w) m in
  (if ok then Ok () else Raise SMTPException,
   {| patients_col := patients_col w;
      outbox := outbox w ++ [{| att_for := who; att_mail := m; att_ok := ok |}];
      writes := writes w; log := log w |}).

Definition concat_lines (ls : list string) : string :=
  fold_right (λ l acc, l ++ PyStr.nl ++ acc) "" ls.

(** ** scheduler.py *)

Module Scheduler.

Definition patterns : gmap string string :=
  {[ "morning" := "morning|morn|am|breakfast";
     "afternoon" := "afternoon|noon|midday|pm|lunch";
     "night" := "night|evening|bedtime|dinner" ]}.

Definition patient_matches_period (patient_timing_field period : string) : bool :=
  if negb (PyStr.truthy patient_timing_field) then false
  else
    let text := PyStr.lower patient_timing_field in
    Re.search (default "" (patterns !! period)) text.

Definition send_email (net : Smtp) (who : nat)
    (to_email : value) (subject body : string) : M bool :=
  let msg := {| mail_to := to_email; mail_subject := subject; mail_body := body |} in
  try_except
    (_ ← smtp_send net who msg;
     _ ← emit (LogEmailSent to_email);
     mret true)
    (λ e, _ ← emit (LogEmailFailed to_email); mret false).

Definition reminder_subject (patient_name disease : value) : string :=
  "💊 Medicine Reminder — " ++ py_str patient_name ++
  " (" ++ PyStr.capitalize (py_str disease) ++ ")".

Definition reminder_body (period today_str : string)
    (patient_name age gender email disease medicine dosage timing_text
     notes created_at : value) : string :=
  PyStr.nl ++ concat_lines
    [ "Hello " ++ py_str patient_name ++ ",";
      "";
      "This is your scheduled medicine reminder for the " ++ period ++ ".";
      "";
      "🧍 PATIENT DETAILS";
      "--------------------------------";
      "👤 Name: " ++ py_str patient_name;
      "🎂 Age: " ++ py_str age;
      "⚧ Gender: " ++ py_str gender;
      "📧 Email: " ++ py_str email;
      "";
      "🩺 MEDICAL INFORMATION";
      "--------------------------------";
      "🦠 Disease: " ++ PyStr.capitalize (py_str disease);
      "💊 Medicine: " ++ PyStr.capitalize (py_str medicine);
      "💧 Dosage: " ++ py_str dosage;
      "⏰ Timing: " ++ py_str timing_text;
      "🗒️ Notes: " ++ py_str notes;
      "";
      "📅 Record Created: " ++ py_str created_at;
      "📩 Reminder Sent On: " ++ today_str;
      "";
      "Please take your medicine as prescribed.";
      "If you feel unwell, consult your doctor immediately.";
      "";
      "— Medicine Reminder System 💊" ].

(** The timing text the eligibility test reads: the canonical field, then
    the legacy ones; a value that is not a string counts as [""]. *)
Definition timing_field_lc (p : patient) : string :=
  let timing_field :=
    py_or (py_or (py_or (get p "time_to_take") (get p "timing"))
                 (get p "timings")) (VStr "") in
  match timing_field with
  | VStr s => PyStr.lower s
  | _ => ""
  end.

(** One iteration of the loop of [send_batch_for_period]; the state is
    [(sent_count, fail_count)], and [continue] is an early [mret]. *)
Definition batch_step (net : Smtp) (period today_str : string)
    (p : patient) (c : nat * nat) : M (nat * nat) :=
  let '(sent_count, fail_count) := c in
  if negb (patient_matches_period (timing_field_lc p) period) then mret c
  else
    let meta_field := "last_sent_" ++ period in
    if value_eqb (get p meta_field) (VStr today_str) then mret c
    else
      let patient_name := get_or p "patient_name" (VStr "Unknown") in
      let age := get_or p "age" (VStr "N/A") in
      let gender := get_or p "gender" (VStr "N/A") in
      let email := get_or p "email" (VStr "N/A") in
      let disease := get_or p "disease" (VStr "N/A") in
      let medicine :=
        get_or p "medicine" (get_or p "medicine_suggestion" (VStr "N/A")) in
      let dosage := get_or p "dosage" (VStr "N/A") in
      let timing_text :=
        get_or p "time_to_take"
          (get_or p "timing" (get_or p "timings" (VStr "N/A"))) in
      let notes := get_or p "notes" (VStr "No additional notes provided.") in
      let created_at := get_or p "created_at" (VStr today_str) in
      let subject := reminder_subject patient_name disease in
      let body :=
        reminder_body period today_str patient_name age gender email disease
          medicine dosage timing_text notes created_at in
      if negb (truthy email) || negb (PyStr.contains "@" (py_str email)) then
        _ ← emit (LogSkipInvalid patient_name email); mret c
      else
        ok ← send_email net (_id p) email subject body;
        if ok : bool then
          _ ← update_one (_id p) meta_field (VStr today_str);
          mret (S sent_count, fail_count)
        else mret (sent_count, S fail_count).

(** [send_batch_for_period(period)], with [date.today().isoformat()] as
    [today_str]; the result is the pair the last log line reports. *)
Definition send_batch_for_period (net : Smtp) (today_str period : string)
  : M (nat * nat) :=
  _ ← emit (LogRunning period today_str);
  cursor ← find_all;
  c ← for_each cursor (batch_step net period today_str) (0, 0);
  _ ← emit (LogCompleted period (fst c) (snd c));
  mret c.

End Scheduler.

(** ** app.py: the reminder job started with the web application *)

Module App.

Definition patterns : gmap string string :=
  {[ "morning" := "morning|am|breakfast";
     "afternoon" := "afternoon|noon|lunch";
     "night" := "night|pm|evening|dinner|bedtime" ]}.

(** [timing_field.lower()] raises on a value that is not a string, and
    [patterns[period]] on a period that is not a key. *)
Definition matches_period (timing_field : value) (period : string) : M bool :=
  if negb (truthy timing_field) then mret false
  else
    match timing_field with
    | VStr s =>
        let text := PyStr.lower s in
        match patterns !! period with
        | Some pattern => mret (Re.search pattern text)
        | None => raise (KeyError period)
        end
    | _ => raise AttributeError
    end.

(** [patient[k]] *)
Definition index (p : patient) (k : string) : M value :=
  match doc p !! k with
  | Some v => mret v
  | None => raise (KeyError k)
  end.

Definition reminder_text (p : patient) (period : string) : string :=
  PyStr.nl ++ concat_lines
    [ "Hello " ++ py_str (get_or p "patient_name" (VStr "Patient")) ++ ",";
      "";
      "This is your " ++ period ++ " medicine reminder 💊";
      "";
      "🩺 Disease: " ++ py_str (get_or p "disease" (VStr "N/A"));
      "💊 Medicine: " ++ py_str (get_or p "medicine" (VStr "N/A"));
      "💧 Dosage: " ++ py_str (get_or p "dosage" (VStr "N/A"));
      "⏰ Timing: " ++ py_str (get_or p "time_to_take" (VStr "N/A"));
      "";
      "Please take your medicine as prescribed.";
      "Stay healthy! 💙";
      "";
      "— Medicine Reminder System" ].

(** The handler of [send_reminder_email] reads [patient['email']] again:
    without that key the [KeyError] of the handler escapes. *)
Definition send_reminder_email (net : Smtp) (p : patient) (period : string)
  : M bool :=
  try_except
    (let text := reminder_text p period in
     let subject := "💊 " ++ PyStr.capitalize period ++ " Medicine Reminder" in
     to ← index p "email";
     let msg := {| mail_to := to; mail_subject := subject; mail_body := text |} in
     _ ← smtp_send net (_id p) msg;
     to' ← index p "email";
     _ ← emit (PrintSent (PyStr.capitalize period) to');
     mret true)
    (λ e, to ← index p "email"; _ ← emit (PrintFailed to); mret false).

(** One iteration of the loop of [run_reminder_job]. *)
Definition job_step (net : Smtp) (period today_str : string)
    (p : patient) (sent_count : nat) : M nat :=
  let timing := get_or p "time_to_take" (VStr "") in
  m ← matches_period timing period;
  if m : bool then
    let meta_field := "last_sent_" ++ period in
    if value_eqb (get p meta_field) (VStr today_str) then mret sent_count
    else
      ok ← send_reminder_email net p period;
      if ok : bool then
        _ ← update_one (_id p) meta_field (VStr today_str);
        mret (S sent_count)
      else mret sent_count
  else mret sent_count.

(** [run_reminder_job(period)], with [date.today().isoformat()] as
    [today_str]; the result is the count the last line prints. *)
Definition run_reminder_job (net : Smtp) (today_str period : string) : M nat :=
  patients ← find_all;
  sent_count ← for_each patients (job_step net period today_str) 0;
  _ ← emit (PrintCompleted (PyStr.capitalize period) sent_count);
  mret sent_count.

End App.

(** ** difflib: [SequenceMatcher] on strings and [get_close_matches] *)

Module Difflib.

Definition float_of_nat (n : nat) : float :=
  PrimFloat.of_uint63 (Uint63.of_Z (Z.of_nat n)).

(** [_calculate_ratio(matches, length)] *)
Definition _calculate_ratio (matches length : nat) : float :=
  if Nat.eqb length 0 then 1%float
  else PrimFloat.div (PrimFloat.mul 2%float (float_of_nat matches))
                     (float_of_nat length).

Section Matcher.

(** [a] is [seq1], [b] is [seq2]; no [isjunk], [autojunk] on. *)
Variables a b : list ascii.

Definition occurrences (c : ascii) (l : list ascii) : nat :=
  length (List.filter (Ascii.eqb c) l).

(** [__chain_b]: in a [b] of 200 elements or more, an element that occurs
    more than [n // 100 + 1] times is popular and leaves [b2j]. *)
Definition popular (c : ascii) : bool :=
  Nat.leb 200 (length b) && Nat.ltb (length b / 100 + 1) (occurrences c b).

Definition same_at (i j : nat) : bool :=
  match a !! i, b !! j with
  | Some x, Some y => Ascii.eqb x y
  | _, _ => false
  end.

(** [newj2len] as a row over the indices of [b]; an index without an entry
    holds 0, the default of [j2len.get].  [shifted] is the previous row
    moved one place right. *)
Fixpoint next_row (ai : ascii) (bs : list ascii) (j : nat)
    (shifted : list nat) (blo bhi : nat) : list nat :=
  match bs with
  | [] => []
  | bj :: bs' =>
      (if Ascii.eqb ai bj && negb (popular ai) && Nat.leb blo j && Nat.ltb j bhi
       then S (hd 0 shifted) else 0)
      :: next_row ai bs' (S j) (tl shifted) blo bhi
  end.

(** [if k > bestsize: besti, bestj, bestsize = i-k+1, j-k+1, k], for the
    entries of one row in the order of [j]. *)
Fixpoint scan_best (i : nat) (row : list nat) (j : nat)
    (best : nat * nat * nat) : nat * nat * nat :=
  match row with
  | [] => best
  | k :: r =>
      scan_best i r (S j)
        (if Nat.ltb (snd best) k then (i + 1 - k, j + 1 - k, k) else best)
  end.

(** [for i in range(alo, ahi)] *)
Fixpoint longest_run (as_ : list ascii) (i : nat) (row : list nat)
    (alo ahi blo bhi : nat) (best : nat * nat * nat) : nat * nat * nat :=
  match as_ with
  | [] => best
  | ai :: r =>
      if Nat.leb alo i && Nat.ltb i ahi then
        let row' := next_row ai b 0 (0 :: row) blo bhi in
        longest_run r (S i) row' alo ahi blo bhi (scan_best i row' 0 best)
      else longest_run r (S i) row alo ahi blo bhi best
  end.

(** [while besti > alo and bestj > blo and a[besti-1] == b[bestj-1]] *)
Fixpoint extend_left (alo blo besti bestj bestsize : nat) {struct besti}
  : nat * nat * nat :=
  match besti, bestj with
  | S i', S j' =>
      if Nat.ltb alo besti && Nat.ltb blo bestj && same_at i' j'
      then extend_left alo blo i' j' (S bestsize)
      else (besti, bestj, bestsize)
  | _, _ => (besti, bestj, bestsize)
  end.

(** [while besti+bestsize < ahi and bestj+bestsize < bhi and
    a[besti+bestsize] == b[bestj+bestsize]]; [fuel] is
    [ahi - (besti+bestsize)], at 0 the loop test fails. *)
Fixpoint extend_right (fuel ahi bhi besti bestj bestsize : nat) : nat :=
  match fuel with
  | 0 => bestsize
  | S f =>
      if Nat.ltb (besti + bestsize) ahi && Nat.ltb (bestj + bestsize) bhi
         && same_at (besti + bestsize) (bestj + bestsize)
      then extend_right f ahi bhi besti bestj (S bestsize)
      else bestsize
  end.

(** [find_longest_match(alo, ahi, blo, bhi)].  Without [isjunk] the set
    [bjunk] is empty and the two loops over junk never run. *)
Definition find_longest_match (alo ahi blo bhi : nat) : nat * nat * nat :=
  let '(besti, bestj, bestsize) :=
    longest_run a 0 [] alo ahi blo bhi (alo, blo, 0) in
  let '(besti, bestj, bestsize) :=
    extend_left alo blo besti bestj bestsize in
  let bestsize :=
    extend_right (ahi - (besti + bestsize)) ahi bhi besti bestj bestsize in
  (besti, bestj, bestsize).

(** The blocks [get_matching_blocks] collects from the range
    [(alo, ahi, blo, bhi)], before sorting and merging; [fuel] bounds the
    length of the range of [a], which shrinks at every split. *)
Fixpoint blocks (fuel alo ahi blo bhi : nat) : list (nat * nat * nat) :=
  match fuel with
  | 0 => []
  | S f =>
      let '(i, j, k) := find_longest_match alo ahi blo bhi in
      if Nat.eqb k 0 then []
      else
        (i, j, k)
        :: (if Nat.ltb alo i && Nat.ltb blo j then blocks f alo i blo j else [])
        ++ (if Nat.ltb (i + k) ahi && Nat.ltb (j + k) bhi
            then blocks f (i + k) ahi (j + k) bhi else [])
  end.

Definition get_matching_blocks : list (nat * nat * nat) :=
  blocks (length a) 0 (length a) 0 (length b).

(** [ratio()]: merging adjacent blocks keeps the sum of their sizes. *)
Definition ratio : float :=
  let matches := list_sum (map snd get_matching_blocks) in
  _calculate_ratio matches (length a + length b).

Fixpoint remove_one (c : ascii) (l : list ascii) : option (list ascii) :=
  match l with
  | [] => None
  | x :: r =>
      if Ascii.eqb c x then Some r
      else match remove_one c r with
           | Some r' => Some (x :: r')
           | None => None
           end
  end.

(** The matches of [quick_ratio]: [avail] is the multiset of [b] less
    what [a] has used of it. *)
Fixpoint quick_matches (as_ avail : list ascii) : nat :=
  match as_ with
  | [] => 0
  | x :: r =>
      match remove_one x avail with
      | Some avail' => S (quick_matches r avail')
      | None => quick_matches r avail
      end
  end.

Definition quick_ratio : float :=
  _calculate_ratio (quick_matches a b) (length a + length b).

Definition real_quick_ratio : float :=
  _calculate_ratio (Nat.min (length a) (length b)) (length a + length b).

End Matcher.

(** [(s1, x1) > (s2, x2)] on tuples of a float and a string. *)
Definition tuple_gt (p q : float * string) : bool :=
  if PrimFloat.eqb (fst p) (fst q) then String.ltb (snd q) (snd p)
  else PrimFloat.ltb (fst q) (fst p).

(** [max(result)]: the first of the greatest tuples. *)
Fixpoint max_tuple (best : float * string) (l : list (float * string))
  : float * string :=
  match l with
  | [] => best
  | x :: r => max_tuple (if tuple_gt x best then x else best) r
  end.

(** [get_close_matches(word, possibilities, n=1, cutoff=cutoff)] *)
Definition get_close_matches (word : string) (possibilities : list string)
    (cutoff : float) : list string :=
  let w := PyStr.chars word in
  let result :=
    omap (λ x,
            let s := PyStr.chars x in
            if PrimFloat.leb cutoff (real_quick_ratio s w)
               && PrimFloat.leb cutoff (quick_ratio s w)
               && PrimFloat.leb cutoff (ratio s w)
            then Some (ratio s w, x) else None)
         possibilities in
  match result with
  | [] => []
  | x :: r => [snd (max_tuple x r)]
  end.

End Difflib.

(** ** scikit-learn: what [recommender.py] uses of it

    The numbers of [TfidfVectorizer] and [cosine_similarity] are the
    library's: [tfidf_cosine corpus query i] is the cosine of the query and
    document [i] when they share a term.  The terms are modelled: lower-cased
    runs of two or more word characters that are not stop words; vectors
    without a common term have cosine [0.0]. *)

Record Sklearn : Type :=
  { ENGLISH_STOP_WORDS : list string;
    tfidf_cosine : list string → string → nat → float }.

Module Tfidf.

(** [\w] on one byte; a byte above 127 is taken as part of a letter. *)
Definition is_word_char (c : ascii) : bool :=
  let n := nat_of_ascii c in
  (Nat.leb 48 n && Nat.leb n 57) || PyStr.is_upper c || PyStr.is_lower c
  || Nat.eqb n 95 || Nat.leb 128 n.

Fixpoint word_runs (l cur : list ascii) : list (list ascii) :=
  match l with
  | [] => [rev cur]
  | c :: r =>
      if is_word_char c then word_runs r (c :: cur)
      else rev cur :: word_runs r []
  end.

(** The default [token_pattern], after lower-casing. *)
Definition tokenize (s : string) : list string :=
  map PyStr.text
    (List.filter (λ w, Nat.leb 2 (length w))
       (word_runs (PyStr.chars (PyStr.lower s)) [])).

Definition analyze (sk : Sklearn) (s : string) : list string :=
  List.filter (λ t, negb (existsb (String.eqb t) (ENGLISH_STOP_WORDS sk)))
    (tokenize s).


Definition shares_term (sk : Sklearn) (doc query : string) : bool :=
  existsb (λ t, existsb (String.eqb t) (analyze sk doc)) (analyze sk query).

(** The row [cosine_similarity(transform([query]), vectors)]. *)
Definition cosine_similarity (sk : Sklearn) (corpus : list string)
    (query : string) : list float :=
  imap (λ i doc,
          if shares_term sk doc query then tfidf_cosine sk corpus query i
          else 0%float)
       corpus.

(** [numpy.argmax] of a row of floats: the first maximum, or the first
    NaN; [None] stands for the [ValueError] of an empty row. *)
Fixpoint argmax_from (l : list float) (i best : nat) (mp : float) : nat :=
  match l with
  | [] => best
  | x :: r =>
      if negb (PrimFloat.leb x mp) then
        if PrimFloat.is_nan x then i else argmax_from r (S i) i x
      else argmax_from r (S i) best mp
  end.

Definition argmax (l : list float) : option nat :=
  match l with
  | [] => None
  | x :: r => Some (if PrimFloat.is_nan x then 0 else argmax_from r 1 0 x)
  end.

End Tfidf.

(** ** recommender.py *)

(** One row of the sheet. *)
Record Row : Type :=
  { disease : string; medicine : string; dosage : string; time_to_take : string }.

(** The dictionary [recommend] returns. *)
Record Advice : Type :=
  { out_disease : string; out_medicine : string;
    out_dosage : string; out_time_to_take : string }.

Module Recommender.

(** [.str.lower().str.strip()] on the four columns. *)
Definition clean (r : Row) : Row :=
  {| disease := PyStr.strip (PyStr.lower (disease r));
     medicine := PyStr.strip (PyStr.lower (medicine r));
     dosage := PyStr.strip (PyStr.lower (dosage r));
     time_to_take := PyStr.strip (PyStr.lower (time_to_take r)) |}.


Definition _format_output (row : Row) : Advice :=
  {| out_disease := PyStr.capitalize (disease row);
     out_medicine := PyStr.capitalize (medicine row);
     out_dosage := dosage row;
     out_time_to_take := time_to_take row |}.

Definition _fallback (disease_query : string) : Advice :=
  {| out_disease := PyStr.capitalize disease_query;
     out_medicine := "Consult Doctor for Proper Medicine";
     out_dosage := "N/A";
     out_time_to_take := "N/A" |}.

(** Step 1: the first row whose disease contains the query. *)
Definition partial_match (df : list Row) (query : string) : option Row :=
  List.find (λ row, PyStr.contains query (disease row)) df.

(** Steps 2 to 4 of [recommend], entered when no row contains the query. *)
Definition similar_or_close (sk : Sklearn) (df : list Row) (query : string)
  : Result Advice :=
  let similarity := Tfidf.cosine_similarity sk (map disease df) query in
  match Tfidf.argmax similarity with
  | None => Raise ValueError
  | Some idx =>
      match similarity !! idx, df !! idx with
      | Some score, Some best =>
          if PrimFloat.leb 0.1%float score then Ok (_format_output best)
          else
            match Difflib.get_close_matches query (map disease df) 0.3%float with
            | m :: _ =>
                match List.filter (λ row, String.eqb (disease row) m) df with
                | row :: _ => Ok (_format_output row)
                | [] => Raise IndexError
                end
            | [] => Ok (_fallback query)
            end
      | _, _ => Raise IndexError
      end
  end.

Definition recommend (sk : Sklearn) (df : list Row) (disease_query : string)
  : Result Advice :=
  let query := PyStr.strip (PyStr.lower disease_query) in
  if negb (PyStr.truthy query) then Ok (_fallback "No disease entered")
  else
    match partial_match df query with
    | Some row => Ok (_format_output row)
    | None => similar_or_close sk df query
    end.

End Recommender.

(** ** The routes of app.py that write to the store *)

Module Routes.

(** The object a request carries: the result of [get_request_data()] or of
    [request.get_json(force=True)]. *)
Definition Request : Type := gmap string value.

(** The JSON objects the two routes answer with. *)
Inductive Body : Type :=
| BError (error : string)
| BRedirect (redirect : string)
| BAdvice (medicine dosage timing : string)
| BFailure (error : string).

Record Response : Type := { status : nat; body : Body }.

(** [data.get(k) or ""] where the route goes on with a method of [str]: a
    value that counts as true and is no string has no such method. *)
Definition text_or_empty (data : Request) (k : string) : Result string :=
  match py_or (default VNone (data !! k)) (VStr "") with
  | VStr s => Ok s
  | _ => Raise AttributeError
  end.

(** [(data.get("username") or "").strip()] and
    [(data.get("email") or "").strip().lower()] *)
Definition requested_username (data : Request) : Result string :=
  match text_or_empty data "username" with
  | Ok s => Ok (PyStr.strip s)
  | Raise e => Raise e
  end.

Definition requested_email (data : Request) : Result string :=
  match text_or_empty data "email" with
  | Ok s => Ok (PyStr.lower (PyStr.strip s))
  | Raise e => Raise e
  end.

(** The [users] collection: [None] without a database. *)
Definition Users : Type := option (list (gmap string value)).

(** A query [{k: s}] on one document. *)
Definition field_is (u : gmap string value) (k s : string) : bool :=
  match u !! k with
  | Some (VStr x) => String.eqb x s
  | _ => false
  end.

(** [users_col.find_one({"$or": [{"username": username}, {"email": email}]})] *)
Definition find_one_user (users : list (gmap string value))
    (username email : string) : option (gmap string value) :=
  List.find (λ u, field_is u "username" username || field_is u "email" email)
    users.

Definition account (username email hashed : string) : gmap string value :=
  {[ "username" := VStr username; "email" := VStr email;
     "password" := VStr hashed ]}.

Section Register.

(** [werkzeug.security.generate_password_hash]; its salt is the
    environment's.  It encodes its argument, which only a string allows. *)
Variable generate_password_hash : string → string.

(** The body of the [try] of [register]. *)
Definition register_try (users_col : Users) (data : Request)
  : Result (Response * Users) :=
  match requested_username data with
  | Raise e => Raise e
  | Ok username =>
      match requested_email data with
      | Raise e => Raise e
      | Ok email =>
          let password := py_or (default VNone (data !! "password")) (VStr "") in
          if negb (PyStr.truthy username) || negb (PyStr.truthy email)
             || negb (truthy password)
          then Ok ({| status := 400; body := BError "All fields are required" |},
                   users_col)
          else
            match users_col with
            | None =>
                Ok ({| status := 500; body := BError "Database not connected" |},
                    users_col)
            | Some users =>
                match find_one_user users username email with
                | Some existing =>
                    Ok ({| status := 400;
                           body := BError "Username or email already exists" |},
                        users_col)
                | None =>
                    match password with
                    | VStr pw =>
                        let hashed := generate_password_hash pw in
                        Ok ({| status := 200; body := BRedirect "/dashboard" |},
                            Some (users ++ [account username email hashed])%list)
                    | _ => Raise AttributeError
                    end
                end
            end
      end
  end.

(** [register()]: the answer and the collection after it. *)
Definition register (users_col : Users) (data : Request) : Response * Users :=
  match register_try users_col data with
  | Ok r => r
  | Raise e =>
      ({| status := 500; body := BError "Server error during registration" |},
       users_col)
  end.

End Register.

(** The [_id] the store gives a new document: one it has not given yet. *)
Definition fresh_id (col : list patient) : nat :=
  S (foldr Nat.max 0 (map _id col)).

(** [patients_col.insert_one(d)] *)
Definition insert_one (d : gmap string value) : M nat := λ w,
  let i := fresh_id (patients_col w) in
  (Ok i, {| patients_col := (patients_col w ++ [{| _id := i; doc := d |}])%list;
            outbox := outbox w; writes := writes w; log := log w |}).

Definition lift {A : Type} (r : Result A) : M A := λ w, (r, w).

(** The document [recommend()] stores. *)
Definition stored_record (data : Request) (rec : Advice) : gmap string value :=
  {[ "patient_name" := default VNone (data !! "patient_name");
     "age" := default VNone (data !! "age");
     "gender" := default VNone (data !! "gender");
     "email" := default VNone (data !! "email");
     "disease" := VStr (out_disease rec);
     "medicine" := VStr (out_medicine rec);
     "dosage" := VStr (out_dosage rec);
     "time_to_take" := VStr (out_time_to_take rec) ]}.

(** The message [recommend()] composes. *)
Definition recommendation_mail (data : Request) (rec : Advice) : Mail :=
  {| mail_to := default VNone (data !! "email");
     mail_subject := "💊 Medicine Recommendation for " ++ out_disease rec;
     mail_body :=
       PyStr.nl ++ concat_lines
         [ "Hello " ++ py_str (default VNone (data !! "patient_name")) ++ ",";
           "";
           "Based on your health condition (" ++ out_disease rec
             ++ "), here is your recommended medication:";
           "";
           "💊 Medicine: " ++ out_medicine rec;
           "💧 Dosage: " ++ out_dosage rec;
           "⏰ Timing: " ++ out_time_to_take rec;
           "";
           "Please follow this schedule and consult your doctor if you experience any issues.";
           "";
           "Stay healthy and take care 💙";
           "— Medicine Reminder System" ] |}.

(** [recommend()] of app.py; [recommender] is [None] when the matcher could
    not be set up.  The lines it prints are left out. *)
Definition recommend (sk : Sklearn) (recommender : option (list Row))
    (net : Smtp) (data : Request) : M Response :=
  try_except
    (disease ← lift (text_or_empty data "disease");
     let disease := PyStr.strip disease in
     rec ← match recommender with
           | Some df => lift (Recommender.recommend sk df disease)
           | None => raise AttributeError
           end;
     i ← insert_one (stored_record data rec);
     _ ← smtp_send net i (recommendation_mail data rec);
     mret {| status := 200;
             body := BAdvice (out_medicine rec) (out_dosage rec)
                       (out_time_to_take rec) |})
    (λ e, mret {| status := 500;
                  body := BFailure "Failed to generate recommendation" |}).

End Routes.

(** ** Vocabulary of the properties *)

(** The field that records the last day a reminder went out for a period. *)
Definition marker (period : string) : string := "last_sent_" ++ period.

(** The record already carries today's date for the period. *)
Definition marked (period today_str : string) (p : patient) : bool :=
  value_eqb (get p (marker period)) (VStr today_str).

(** What a computation added to the outbox, the writes and the log. *)
Definition new_attempts (w w' : World) : list Attempt :=
  drop (length (outbox w)) (outbox w').
Definition new_writes (w w' : World) : list Write :=
  drop (length (writes w)) (writes w').
Definition new_log (w w' : World) : list LogLine :=
  drop (length (log w)) (log w').

Definition attempts_for (i : nat) (l : list Attempt) : list Attempt :=
  List.filter (λ a, Nat.eqb (att_for a) i) l.
Definition writes_for (i : nat) (l : list Write) : list Write :=
  List.filter (λ x, Nat.eqb (w_id x) i) l.

(** The job run [n] times in a row; what a run leaves behind stays, also
    when it raised. *)
Fixpoint run_many {A : Type} (job : M A) (n : nat) (w : World) : World :=
  match n with
  | 0 => w
  | S k => run_many job k (snd (job w))
  end.

(** The write of a successful attempt. *)
Definition marker_write (period today_str : string) (a : Attempt) : Write :=
  {| w_id := att_for a; w_field := marker period; w_value := VStr today_str |}.

(** The test of line 164 of scheduler.py. *)
Definition invalid_email (p : patient) : bool :=
  let email := get_or p "email" (VStr "N/A") in
  negb (truthy email) || negb (PyStr.contains "@" (py_str email)).

(** The records for which [send_batch_for_period] calls [send_email]. *)
Definition eligible (period today_str : string) (p : patient) : bool :=
  Scheduler.patient_matches_period (Scheduler.timing_field_lc p) period
  && negb (marked period today_str p)
  && negb (invalid_email p).

(** The message [send_batch_for_period] composes for a record. *)
Definition reminder_mail (period today_str : string) (p : patient) : Mail :=
  let patient_name := get_or p "patient_name" (VStr "Unknown") in
  let email := get_or p "email" (VStr "N/A") in
  let disease := get_or p "disease" (VStr "N/A") in
  {| mail_to := email;
     mail_subject := Scheduler.reminder_subject patient_name disease;
     mail_body :=
       Scheduler.reminder_body period today_str patient_name
         (get_or p "age" (VStr "N/A")) (get_or p "gender" (VStr "N/A")) email
         disease
         (get_or p "medicine" (get_or p "medicine_suggestion" (VStr "N/A")))
         (get_or p "dosage" (VStr "N/A"))
         (get_or p "time_to_take"
            (get_or p "timing" (get_or p "timings" (VStr "N/A"))))
         (get_or p "notes" (VStr "No additional notes provided."))
         (get_or p "created_at" (VStr today_str)) |}.

(** The message [send_reminder_email] of app.py composes for a record. *)
Definition app_reminder_mail (period : string) (p : patient) (to : value) : Mail :=
  {| mail_to := to;
     mail_subject := "💊 " ++ PyStr.capitalize period ++ " Medicine Reminder";
     mail_body := App.reminder_text p period |}.

(** The collection after the writes of the successful attempts. *)
Definition apply_writes (period today_str : string) (atts : list Attempt)
    (col : list patient) : list patient :=
  fold_left
    (λ col a, update_first (att_for a) (marker period) (VStr today_str) col)
    (List.filter att_ok atts) col.

(** What a dispatcher does to the world when it makes the attempts [atts]:
    they go to the outbox, and each successful one is followed by the write
    of its marker, and by nothing else. *)
Definition effect (period today_str : string) (w w' : World)
    (atts : list Attempt) : Prop :=
  outbox w' = (outbox w ++ atts)%list
  ∧ writes w'
    = (writes w ++ map (marker_write period today_str) (List.filter att_ok atts))%list
  ∧ patients_col w' = apply_writes period today_str atts (patients_col w).

(** A job that only ever attempts records that do not carry today's marker. *)
Definition respects_markers {A : Type} (period today_str : string) (job : M A)
  : Prop :=
  ∀ w, ∃ atts,
    effect period today_str w (snd (job w)) atts
    ∧ sublist (map att_for atts)
        (map _id (List.filter (λ q, negb (marked period today_str q))
                    (patients_col w))).

(** Sample records for the instances below. *)
Definition sample_patient (i : nat) (fields : list (string * value)) : patient :=
  {| _id := i; doc := list_to_map fields |}.

(** A mail server that refuses one address. *)
Definition sample_net : Smtp := λ history m,
  negb (value_eqb (mail_to m) (VStr "bounce@example.org")).

(** Four records: one reminded already today, one due, one with an address
    that is none, one whose server refuses the mail. *)
Definition sample_col : list patient :=
  [ sample_patient 1 [("time_to_take", VStr "morning");
                      ("email", VStr "asha@example.org");
                      ("last_sent_morning", VStr "2024-01-01")];
    sample_patient 2 [("time_to_take", VStr "Morning, Night");
                      ("email", VStr "ravi@example.org")];
    sample_patient 3 [("time_to_take", VStr "after breakfast");
                      ("email", VStr "not-an-email")];
    sample_patient 4 [("time_to_take", VStr "8am");
                      ("email", VStr "bounce@example.org")] ].

(** A record of an older shape: the timing under a legacy name only. *)
Definition legacy_patient : patient :=
  sample_patient 7 [("timing", VStr "morning");
                    ("email", VStr "meena@example.org")].


Definition empty_world (col : list patient) : World :=
  {| patients_col := col; outbox := []; writes := []; log := [] |}.







(** No entry of the row is NaN. *)
Definition no_nan (l : list float) : bool :=
  forallb (λ x, negb (PrimFloat.is_nan x)) l.

(** The three tests a possibility passes in [get_close_matches]. *)
Definition close_enough (cutoff : float) (word x : string) : bool :=
  PrimFloat.leb cutoff (Difflib.real_quick_ratio (PyStr.chars x) (PyStr.chars word))
  && PrimFloat.leb cutoff (Difflib.quick_ratio (PyStr.chars x) (PyStr.chars word))
  && PrimFloat.leb cutoff (Difflib.ratio (PyStr.chars x) (PyStr.chars word)).

(** The answer to a query that is empty once normalised. *)
Definition no_disease_entered : Advice :=
  {| out_disease := "No disease entered";
     out_medicine := "Consult Doctor for Proper Medicine";
     out_dosage := "N/A";
     out_time_to_take := "N/A" |}.

(** Sample data for the instances below: the sheet of the scenario of the
    specification, and a library instance whose kernel is exact for a query
    equal to the document. *)
Definition sample_sheet : list Row :=
  [ {| disease := "diabetes"; medicine := "metformin";
       dosage := "500mg"; time_to_take := "morning, night" |} ].

Definition sample_sklearn : Sklearn :=
  {| ENGLISH_STOP_WORDS := ["a"; "an"; "and"; "of"; "the"];
     tfidf_cosine := λ _ _ _, 1%float |}.

(** What [run_reminder_job] comes to with a period that is no key of the
    table of app.py, by the first record with a timing that counts as
    true. *)
Definition unknown_period_outcome (period : string) (col : list patient)
  : Result nat :=
  match List.find (λ p, truthy (get_or p "time_to_take" (VStr ""))) col with
  | None => Ok 0
  | Some p =>
      match get_or p "time_to_take" (VStr "") with
      | VStr _ => Raise (KeyError period)
      | _ => Raise AttributeError
      end
  end.

(** Some successful attempt of the list is for the record. *)
Definition sent_ok_for (atts : list Attempt) (q : patient) : bool :=
  existsb (λ a, att_ok a && Nat.eqb (att_for a) (_id q)) atts.

(** [q'] is [q] but for the marker of the period, which is as in [q] or
    holds today's date. *)
Definition only_marker_set (period today_str : string) (q q' : patient) : Prop :=
  _id q' = _id q
  ∧ (∀ k, k ≠ marker period → doc q' !! k = doc q !! k)
  ∧ (doc q' !! marker period = doc q !! marker period
     ∨ doc q' !! marker period = Some (VStr today_str)).

(** What [run_reminder_job] of app.py reads of a record's timing. *)
Definition app_timing (p : patient) : value :=
  get_or p "time_to_take" (VStr "").

(** [matches_period] of app.py can classify the record: its timing is a
    string, or a value that counts as false. *)
Definition app_classifiable (p : patient) : bool :=
  match app_timing p with
  | VStr _ => true
  | v => negb (truthy v)
  end.

(** The records for which [run_reminder_job] calls [send_reminder_email],
    for a period whose keywords are [pattern]. *)
Definition app_due (pattern period today_str : string) (p : patient) : bool :=
  match app_timing p with
  | VStr s => PyStr.truthy s && Re.search pattern (PyStr.lower s)
  | _ => false
  end
  && negb (marked period today_str p).

(** The job gets through the record: it can classify it, and finds the
    field [email] where it sends. *)
Definition app_processable (pattern period today_str : string) (p : patient)
  : bool :=
  app_classifiable p
  && (negb (app_due pattern period today_str p)
      || bool_decide (is_Some (doc p !! "email"))).

(** The exception of a record the job does not get through. *)
Definition app_failure (p : patient) : exn :=
  if app_classifiable p then KeyError "email" else AttributeError.

(** The attempt is the one [send_reminder_email] makes for the record: the
    message of the period, to whatever the field [email] holds. *)
Definition app_attempt_of (period : string) (a : Attempt) (p : patient) : Prop :=
  att_for a = _id p
  ∧ doc p !! "email" = Some (mail_to (att_mail a))
  ∧ att_mail a = app_reminder_mail period p (mail_to (att_mail a)).

Definition is_completed (line : LogLine) : bool :=
  match line with
  | PrintCompleted _ _ => true
  | _ => false
  end.

(** The values the documents of a collection hold under a field. *)
Definition field_values (k : string) (users : list (gmap string value))
  : list value :=
  omap (λ u, u !! k) users.

(** No two accounts share a user name, and no two an address. *)
Definition accounts_distinct (users : list (gmap string value)) : Prop :=
  NoDup (field_values "username" users) ∧ NoDup (field_values "email" users).

(** An account as [register] writes it: a name without surrounding blanks,
    an address without them and in lower case, neither empty. *)
Definition registered_account (u : gmap string value) : Prop :=
  ∃ username email hashed,
    u = Routes.account username email hashed
    ∧ username ≠ "" ∧ PyStr.strip username = username
    ∧ email ≠ "" ∧ PyStr.lower (PyStr.strip email) = email.

(** The requests of a list served by [register] one after the other. *)
Definition register_all (generate_password_hash : string → string)
    (users_col : Routes.Users) (requests : list Routes.Request) : Routes.Users :=
  foldl (λ st data, snd (Routes.register generate_password_hash st data))
    users_col requests.

(** The answer of [register] to a name or an address that is taken. *)
Definition already_exists : Routes.Response :=
  {| Routes.status := 400;
     Routes.body := Routes.BError "Username or email already exists" |}.

(** What the matcher answers to the request of [recommend()]: the route
    strips the disease it is given, and has no matcher when that could not
    be set up. *)
Definition advice_for (sk : Sklearn) (recommender : option (list Row))
    (data : Routes.Request) : Result Advice :=
  match Routes.text_or_empty data "disease" with
  | Raise e => Raise e
  | Ok disease =>
      match recommender with
      | Some df => Recommender.recommend sk df (PyStr.strip disease)
      | None => Raise AttributeError
      end
  end.

(** The two answers of [recommend()]. *)
Definition advice_sent (rec : Advice) : Routes.Response :=
  {| Routes.status := 200;
     Routes.body := Routes.BAdvice (out_medicine rec) (out_dosage rec)
                      (out_time_to_take rec) |}.

Definition recommendation_failed : Routes.Response :=
  {| Routes.status := 500;
     Routes.body := Routes.BFailure "Failed to generate recommendation" |}.

(** A record the job of app.py gets through, whatever the period. *)
Definition app_readable (p : patient) : bool :=
  app_classifiable p && bool_decide (is_Some (doc p !! "email")).

(** What happens to the [patients] collection: a request for a
    recommendation, or a run of the reminder job of app.py. *)
Inductive Event : Type :=
| Recommend (data : Routes.Request)
| Reminder (today_str period : string).

Definition happen (sk : Sklearn) (recommender : option (list Row)) (net : Smtp)
    (w : World) (e : Event) : World :=
  match e with
  | Recommend data => snd (Routes.recommend sk recommender net data w)
  | Reminder today_str period =>
      snd (App.run_reminder_job net today_str period w)
  end.

(** A run of one of the two dispatchers, for a period. *)
Inductive Run : Type :=
| AppJob (period : string)
| Batch (period : string).

Definition run_period (r : Run) : string :=
  match r with
  | AppJob period => period
  | Batch period => period
  end.

Definition run_of (net : Smtp) (today_str : string) (w : World) (r : Run)
  : World :=
  match r with
  | AppJob period => snd (App.run_reminder_job net today_str period w)
  | Batch period => snd (Scheduler.send_batch_for_period net today_str period w)
  end.

(** The record and the field a write is for. *)
Definition write_key (x : Write) : nat * string := (w_id x, w_field x).

(** * Properties *)

(** ** Strings *)

Section StringFacts.

Import PyStr.
Local Open Scope list_scope.

Lemma chars_text l : chars (text l) = l.
Proof. apply list_ascii_of_string_of_list_ascii. Qed.

Lemma text_chars s : text (chars s) = s.
Proof. apply string_of_list_ascii_of_string. Qed.

Lemma chars_inj s t : chars s = chars t → s = t.
Proof. intros H. rewrite <- (text_chars s), <- (text_chars t). by rewrite H. Qed.

Lemma chars_lower s : chars (lower s) = map lower_char (chars s).
Proof. unfold lower. apply chars_text. Qed.

Lemma truthy_chars s : truthy s = true ↔ chars s ≠ [].
Proof.
  unfold truthy. destruct s as [|c s]; simpl; split; intros H; try done.
Qed.

Lemma starts_with_spec p s :
  starts_with p s = true ↔ ∃ l, s = p ++ l.
Proof.
  revert s. induction p as [|a p IH]; intros s; simpl.
  - split; eauto.
  - destruct s as [|b s].
    + split; [done | intros [l Hl]; discriminate].
    + rewrite andb_true_iff, IH. split.
      * intros [Hab [l ->]]. apply Ascii.eqb_eq in Hab as ->. eauto.
      * intros [l Hl]. injection Hl as -> ->. split; [apply Ascii.eqb_refl | eauto].
Qed.

Lemma find_in_spec p s :
  find_in p s = true ↔ ∃ l1 l2, s = l1 ++ p ++ l2.
Proof.
  induction s as [|b s IH]; simpl.
  - rewrite orb_false_r, starts_with_spec. split.
    + intros [l Hl]. exists [], l. done.
    + intros (l1 & l2 & H). symmetry in H.
      apply app_eq_nil in H as [-> H]. exists l2. by rewrite H.
  - rewrite orb_true_iff, starts_with_spec, IH. split.
    + intros [[l Hl] | (l1 & l2 & Hl)].
      * exists [], l. done.
      * exists (b :: l1), l2. by rewrite Hl.
    + intros (l1 & l2 & Hl). destruct l1 as [|x l1].
      * left. eauto.
      * right. injection Hl as _ ->. eauto.
Qed.

Lemma contains_spec n h :
  contains n h = true ↔ ∃ l1 l2, chars h = l1 ++ chars n ++ l2.
Proof. apply find_in_spec. Qed.


Lemma contains_empty s : contains "" s = true.
Proof. apply contains_spec. exists [], (chars s). done. Qed.

Lemma contains_trans a b c :
  contains a b = true → contains b c = true → contains a c = true.
Proof.
  rewrite !contains_spec. intros (l1 & l2 & H1) (l3 & l4 & H2).
  exists (l3 ++ l1), (l2 ++ l4). rewrite H2, H1. by rewrite <- !app_assoc.
Qed.

Lemma contains_lower n h :
  contains n h = true → contains (lower n) (lower h) = true.
Proof.
  rewrite !contains_spec. intros (l1 & l2 & H).
  exists (map lower_char l1), (map lower_char l2).
  by rewrite !chars_lower, H, !map_app.
Qed.

Lemma contains_in_empty s : contains s "" = true → s = "".
Proof.
  rewrite contains_spec. intros (l1 & l2 & H). symmetry in H.
  change (chars "") with (@nil ascii) in H.
  apply app_eq_nil in H as [_ H]. apply app_eq_nil in H as [H _].
  by apply chars_inj.
Qed.

Lemma lower_char_not_upper c : is_upper (lower_char c) = false.
Proof. destruct c as [[] [] [] [] [] [] [] []]; reflexivity. Qed.


Lemma lstrip_all_space l : forallb is_space l = true → lstrip_chars l = [].
Proof.
  induction l as [|c l IH]; simpl; [done|].
  intros [Hc Hl]%andb_true_iff. rewrite Hc. auto.
Qed.


(** [capitalize] leaves no upper-case letter after the first character. *)
Lemma capitalize_tail s :
  forallb (λ c, negb (is_upper c)) (tail (chars (capitalize s))) = true.
Proof.
  unfold capitalize. destruct (chars s) as [|c r]; [done|].
  rewrite chars_text. simpl.
  induction r as [|x r IH]; simpl; [done|].
  by rewrite lower_char_not_upper.
Qed.

End StringFacts.

(** ** Period classification *)

Section Classification.

Import PyStr.

Lemma search_unfold pattern s :
  Re.search pattern s = existsb (λ lit, contains lit s) (Re.alternatives pattern).
Proof. reflexivity. Qed.

Lemma search_empty_pattern s : Re.search "" s = true.
Proof. rewrite search_unfold. simpl. by rewrite contains_empty. Qed.





Lemma scheduler_patterns_unknown period :
  period ≠ "morning" → period ≠ "afternoon" → period ≠ "night" →
  Scheduler.patterns !! period = None.
Proof.
  intros H1 H2 H3. unfold Scheduler.patterns.
  rewrite !lookup_insert_ne by done. by apply lookup_singleton_ne.
Qed.

(** C9.  In scheduler.py a period that is not a key of the table is looked
    up as the empty pattern, which is found in every text: every record
    with a non-empty timing text matches such a period. *)
Theorem unknown_period_matches_every_text text period :
  period ≠ "morning" → period ≠ "afternoon" → period ≠ "night" →
  text ≠ "" →
  Scheduler.patient_matches_period text period = true.
Proof.
  intros H1 H2 H3 Ht. unfold Scheduler.patient_matches_period.
  rewrite scheduler_patterns_unknown by done. simpl.
  destruct text as [|c text]; [done|]. simpl. apply search_empty_pattern.
Qed.

Lemma unknown_period_matches_witness :
  "weekly" ≠ "morning" ∧ "weekly" ≠ "afternoon" ∧ "weekly" ≠ "night" ∧
  "after food" ≠ "" ∧
  Scheduler.patient_matches_period "after food" "weekly" = true.
Proof.
  refine (conj _ (conj _ (conj _ (conj _
    (unknown_period_matches_every_text "after food" "weekly" _ _ _ _)))));
    discriminate.
Defined.




End Classification.


(** ** The recursion of [get_matching_blocks] *)

Section MatchingBlocks.

Local Open Scope list_scope.
Local Open Scope nat_scope.

Variables a b : list ascii.

Lemma next_row_bound ai bs j shifted blo bhi n :
  Forall (λ k, k ≤ n) shifted →
  Forall (λ k, k ≤ S n) (Difflib.next_row b ai bs j shifted blo bhi).
Proof.
  revert j shifted. induction bs as [|bj bs IH]; intros j shifted Hs; simpl;
    [constructor|].
  constructor.
  - destruct (_ && _ && _ && _); [|lia].
    destruct shifted as [|k ks]; simpl; [lia|].
    apply Forall_cons in Hs as [Hk _]. lia.
  - apply IH. destruct shifted as [|k ks]; simpl; [constructor|].
    by apply Forall_cons in Hs as [_ Hs].
Qed.

Lemma scan_best_bound alo ahi i row j best :
  alo ≤ i → i < ahi →
  Forall (λ k, k + alo ≤ S i) row →
  alo ≤ best.1.1 ∧ best.1.1 + best.2 ≤ ahi →
  alo ≤ (Difflib.scan_best i row j best).1.1
  ∧ (Difflib.scan_best i row j best).1.1 + (Difflib.scan_best i row j best).2
    ≤ ahi.
Proof.
  intros Hi Hahi. revert j best. induction row as [|k row IH]; intros j best Hrow Hb;
    simpl; [done|].
  apply Forall_cons in Hrow as [Hk Hrow]. apply IH; [done|].
  destruct (Nat.ltb (snd best) k) eqn:E; [|done]. simpl.
  apply Nat.ltb_lt in E. lia.
Qed.

Lemma longest_run_bound as_ i row alo ahi blo bhi best :
  alo ≤ ahi →
  Forall (λ k, k + alo ≤ i) row →
  alo ≤ best.1.1 ∧ best.1.1 + best.2 ≤ ahi →
  alo ≤ (Difflib.longest_run b as_ i row alo ahi blo bhi best).1.1
  ∧ (Difflib.longest_run b as_ i row alo ahi blo bhi best).1.1
    + (Difflib.longest_run b as_ i row alo ahi blo bhi best).2 ≤ ahi.
Proof.
  intros Hle. revert i row best.
  induction as_ as [|ai r IH]; intros i row best Hrow Hb; simpl; [done|].
  destruct (Nat.leb alo i && Nat.ltb i ahi) eqn:E.
  - apply andb_true_iff in E as [E1%Nat.leb_le E2%Nat.ltb_lt].
    assert (Hrow' : Forall (λ k, k + alo ≤ S i)
                      (Difflib.next_row b ai b 0 (0 :: row) blo bhi)).
    { eapply Forall_impl; [apply (next_row_bound _ _ _ _ _ _ (i - alo))|].
      - constructor; [lia|]. eapply Forall_impl; [exact Hrow|]. simpl. lia.
      - simpl. lia. }
    apply IH; [done|]. by apply scan_best_bound.
  - apply IH; [|done]. eapply Forall_impl; [exact Hrow|]. simpl. lia.
Qed.

Lemma extend_left_bound alo blo besti bestj bestsize :
  alo ≤ besti →
  alo ≤ (Difflib.extend_left a b alo blo besti bestj bestsize).1.1
  ∧ (Difflib.extend_left a b alo blo besti bestj bestsize).1.1
    + (Difflib.extend_left a b alo blo besti bestj bestsize).2
    = besti + bestsize.
Proof.
  revert bestj bestsize. induction besti as [|i' IH]; intros bestj bestsize Hle;
    simpl; [done|].
  destruct bestj as [|j']; [done|].
  destruct (Nat.ltb alo (S i') && Nat.ltb blo (S j') && Difflib.same_at a b i' j')
    eqn:E; [|done].
  apply andb_true_iff in E as [[E1%Nat.ltb_lt _]%andb_true_iff _].
  destruct (IH j' (S bestsize)) as [H1 H2]; [lia|]. split; [done|]. lia.
Qed.

Lemma extend_right_bound fuel ahi bhi besti bestj bestsize :
  besti + bestsize ≤ ahi →
  bestsize ≤ Difflib.extend_right a b fuel ahi bhi besti bestj bestsize
  ∧ besti + Difflib.extend_right a b fuel ahi bhi besti bestj bestsize ≤ ahi.
Proof.
  revert bestsize. induction fuel as [|f IH]; intros bestsize Hle; simpl; [lia|].
  destruct (Nat.ltb (besti + bestsize) ahi && _ && _) eqn:E; [|lia].
  apply andb_true_iff in E as [[E1%Nat.ltb_lt _]%andb_true_iff _].
  destruct (IH (S bestsize)) as [H1 H2]; lia.
Qed.

(** The block found lies in the range of [a] it was looked for in. *)
Lemma find_longest_match_bounds alo ahi blo bhi :
  alo ≤ ahi →
  alo ≤ (Difflib.find_longest_match a b alo ahi blo bhi).1.1
  ∧ (Difflib.find_longest_match a b alo ahi blo bhi).1.1
    + (Difflib.find_longest_match a b alo ahi blo bhi).2 ≤ ahi.
Proof.
  intros Hle. unfold Difflib.find_longest_match.
  pose proof (longest_run_bound a 0 [] alo ahi blo bhi (alo, blo, 0) Hle) as H.
  destruct (Difflib.longest_run b a 0 [] alo ahi blo bhi (alo, blo, 0))
    as [[i j] k]. simpl in H.
  destruct H as [H1 H2]; [constructor|lia|].
  pose proof (extend_left_bound alo blo i j k H1) as H.
  destruct (Difflib.extend_left a b alo blo i j k) as [[i' j'] k']. simpl in H.
  destruct H as [H3 H4].
  pose proof (extend_right_bound (ahi - (i' + k')) ahi bhi i' j' k') as H.
  simpl. split; [done|]. lia.
Qed.

(** In an empty range of [a] there is no block. *)
Lemma find_longest_match_empty alo ahi blo bhi :
  ahi ≤ alo → (Difflib.find_longest_match a b alo ahi blo bhi).2 = 0.
Proof.
  intros Hle. unfold Difflib.find_longest_match.
  assert (Hrun : ∀ as_ i row best,
            Difflib.longest_run b as_ i row alo ahi blo bhi best = best).
  { induction as_ as [|ai r IH]; intros i row best; simpl; [done|].
    destruct (Nat.leb alo i && Nat.ltb i ahi) eqn:E; [|apply IH].
    apply andb_true_iff in E as [E1%Nat.leb_le E2%Nat.ltb_lt]. lia. }
  rewrite Hrun.
  assert (Hleft : Difflib.extend_left a b alo blo alo blo 0 = (alo, blo, 0)).
  { destruct alo as [|n]; simpl; [done|]. destruct blo as [|m]; [done|].
    by rewrite Nat.ltb_irrefl. }
  rewrite Hleft. replace (ahi - (alo + 0)) with 0 by lia. reflexivity.
Qed.

(** Fuel that covers the range of [a] is enough: more changes nothing. *)
Lemma blocks_fuel f1 : ∀ f2 alo ahi blo bhi,
  ahi - alo ≤ f1 → ahi - alo ≤ f2 →
  Difflib.blocks a b f1 alo ahi blo bhi = Difflib.blocks a b f2 alo ahi blo bhi.
Proof.
  induction f1 as [|f1 IH]; intros f2 alo ahi blo bhi H1 H2.
  - destruct f2 as [|f2]; simpl; [done|].
    pose proof (find_longest_match_empty alo ahi blo bhi) as He.
    destruct (Difflib.find_longest_match a b alo ahi blo bhi) as [[i j] k].
    simpl in He. rewrite He by lia. reflexivity.
  - destruct f2 as [|f2]; simpl.
    + pose proof (find_longest_match_empty alo ahi blo bhi) as He.
      destruct (Difflib.find_longest_match a b alo ahi blo bhi) as [[i j] k].
      simpl in He. rewrite He by lia. reflexivity.
    + destruct (le_lt_dec ahi alo) as [Hle | Hlt].
      * pose proof (find_longest_match_empty alo ahi blo bhi) as He.
        destruct (Difflib.find_longest_match a b alo ahi blo bhi) as [[i j] k].
        simpl in He. rewrite He by lia. reflexivity.
      * pose proof (find_longest_match_bounds alo ahi blo bhi) as Hb.
        destruct (Difflib.find_longest_match a b alo ahi blo bhi) as [[i j] k].
        simpl in Hb. destruct Hb as [Hb1 Hb2]; [lia|].
        destruct (Nat.eqb k 0) eqn:Ek; [done|]. apply Nat.eqb_neq in Ek.
        f_equal. f_equal.
        -- destruct (_ && _); [|done]. apply IH; lia.
        -- destruct (_ && _); [|done]. apply IH; lia.
Qed.

End MatchingBlocks.

(** [get_matching_blocks] gives its recursion all the fuel it can use. *)
Lemma get_matching_blocks_fuel (a b : list ascii) (fuel : nat) :
  (length a ≤ fuel)%nat →
  Difflib.blocks a b fuel 0 (length a) 0 (length b)
  = Difflib.get_matching_blocks a b.
Proof.
  intros H. unfold Difflib.get_matching_blocks. apply blocks_fuel; lia.
Qed.

(** ** The order of floats *)

Section FloatOrder.

Local Open Scope list_scope.








Lemma no_nan_app l1 l2 : no_nan (l1 ++ l2) = no_nan l1 && no_nan l2.
Proof. apply forallb_app. Qed.



End FloatOrder.

(** ** The disease matcher *)

Section MatcherFacts.

Import PyStr.
Local Open Scope list_scope.

Lemma find_first {A : Type} (f : A → bool) (l : list A) (x : A) :
  List.find f l = Some x →
  ∃ l1 l2, l = l1 ++ x :: l2 ∧ f x = true ∧ ∀ y, In y l1 → f y = false.
Proof.
  induction l as [|a l IH]; simpl; [done|].
  destruct (f a) eqn:Ha.
  - intros [= ->]. exists [], l. repeat split; [done|]. intros y [].
  - intros H. destruct (IH H) as (l1 & l2 & -> & Hx & Hl1).
    exists (a :: l1), l2. repeat split; [done|].
    intros y [<- | Hy]; auto.
Qed.

Lemma find_some_of_member {A : Type} (f : A → bool) (l : list A) (x : A) :
  In x l → f x = true → ∃ y, List.find f l = Some y.
Proof.
  induction l as [|a l IH]; simpl; [done|].
  intros [-> | Hin] Hx.
  - rewrite Hx. eauto.
  - destruct (f a); eauto.
Qed.

Lemma Ok_inj {A : Type} (a b : A) : Ok a = Ok b → a = b.
Proof. congruence. Qed.

Lemma truthy_nonempty s : s ≠ "" → truthy s = true.
Proof.
  intros H. unfold truthy. apply negb_true_iff. by apply String.eqb_neq.
Qed.

(** A formatted row is never the fallback: [capitalize] leaves the letters
    after the first in lower case, and the fallback names a [Doctor]. *)
Lemma format_is_not_fallback row x :
  Recommender._format_output row ≠ Recommender._fallback x.
Proof.
  intros H. apply (f_equal out_medicine) in H. simpl in H.
  pose proof (capitalize_tail (medicine row)) as Ht.
  rewrite H in Ht. vm_compute in Ht. discriminate.
Qed.

(** C2.  A non-empty normalised query that occurs in the disease of a row
    of the catalog is answered from the first row, in catalog order, whose
    disease contains it: that row is the given one or an earlier one, and
    the answer is never the fallback. *)
Theorem substring_query_returns_first_hit sk df E Q :
  In E df →
  strip (lower Q) ≠ "" →
  contains (strip (lower Q)) (disease E) = true →
  ∃ before E' after,
    df = before ++ E' :: after
    ∧ (∀ r, In r before → contains (strip (lower Q)) (disease r) = false)
    ∧ contains (strip (lower Q)) (disease E') = true
    ∧ (E' = E ∨ In E after)
    ∧ Recommender.recommend sk df Q = Ok (Recommender._format_output E')
    ∧ ∀ x, Recommender.recommend sk df Q ≠ Ok (Recommender._fallback x).
Proof.
  intros HE Hq Hc.
  destruct (find_some_of_member
              (λ row, contains (strip (lower Q)) (disease row)) df E HE Hc)
    as [E' Hfind].
  destruct (find_first _ _ _ Hfind) as (before & after & Hdf & HE' & Hbefore).
  assert (Hrec : Recommender.recommend sk df Q
                 = Ok (Recommender._format_output E')).
  { unfold Recommender.recommend, Recommender.partial_match.
    rewrite (truthy_nonempty _ Hq). simpl. by rewrite Hfind. }
  exists before, E', after. repeat split; try done.
  - rewrite Hdf in HE. apply in_app_or in HE as [Hin | [-> | Hin]]; auto.
    apply Hbefore in Hin. congruence.
  - intros x. rewrite Hrec. intros H%Ok_inj. by apply format_is_not_fallback in H.
Qed.

Lemma substring_query_witness :
  ∃ before E' after,
    Recommender.clean <$> sample_sheet = before ++ E' :: after
    ∧ (∀ r, In r before → contains (strip (lower " Diabet ")) (disease r) = false)
    ∧ contains (strip (lower " Diabet ")) (disease E') = true
    ∧ (E' = {| disease := "diabetes"; medicine := "metformin";
               dosage := "500mg"; time_to_take := "morning, night" |}
       ∨ In {| disease := "diabetes"; medicine := "metformin";
               dosage := "500mg"; time_to_take := "morning, night" |} after)
    ∧ Recommender.recommend sample_sklearn (Recommender.clean <$> sample_sheet)
        " Diabet "
      = Ok (Recommender._format_output E')
    ∧ ∀ x, Recommender.recommend sample_sklearn
             (Recommender.clean <$> sample_sheet) " Diabet "
           ≠ Ok (Recommender._fallback x).
Proof.
  apply (substring_query_returns_first_hit sample_sklearn
           (Recommender.clean <$> sample_sheet)
           {| disease := "diabetes"; medicine := "metformin";
              dosage := "500mg"; time_to_take := "morning, night" |}
           " Diabet ").
  - vm_compute. auto.
  - vm_compute. discriminate.
  - vm_compute. reflexivity.
Defined.






Lemma max_tuple_in best l :
  Difflib.max_tuple best l = best ∨ In (Difflib.max_tuple best l) l.
Proof.
  revert best. induction l as [|x r IH]; intros best; simpl; [auto|].
  destruct (IH (if Difflib.tuple_gt x best then x else best)) as [-> | H];
    [|auto].
  destruct (Difflib.tuple_gt x best); auto.
Qed.

(** What [get_close_matches] returns is one of the possibilities, and its
    ratio is at least the cutoff. *)
Lemma get_close_matches_sound word possibilities cutoff m rest :
  Difflib.get_close_matches word possibilities cutoff = m :: rest →
  rest = [] ∧ In m possibilities
  ∧ PrimFloat.leb cutoff (Difflib.ratio (chars m) (chars word)) = true.
Proof.
  unfold Difflib.get_close_matches.
  match goal with |- context [omap ?f possibilities] => set (keep := f) end.
  destruct (omap keep possibilities) as [|x r] eqn:E; [done|].
  intros [= <- <-]. split; [done|].
  assert (Hin : Difflib.max_tuple x r ∈ omap keep possibilities).
  { rewrite E. destruct (max_tuple_in x r) as [-> | H].
    - left.
    - right. by apply list_elem_of_In. }
  apply list_elem_of_omap in Hin as (y & Hy & Hk).
  unfold keep in Hk.
  destruct (PrimFloat.leb cutoff (Difflib.real_quick_ratio _ _)
            && PrimFloat.leb cutoff (Difflib.quick_ratio _ _)
            && PrimFloat.leb cutoff (Difflib.ratio (chars y) (chars word)))
    eqn:Hpass; [|done].
  injection Hk as Hk. rewrite <- Hk. simpl.
  apply andb_true_iff in Hpass as [_ Hr]. split; [by apply list_elem_of_In|done].
Qed.

(** Nothing comes back exactly when no possibility passes the three tests. *)
Lemma get_close_matches_none word possibilities cutoff :
  Difflib.get_close_matches word possibilities cutoff = [] →
  ∀ x, In x possibilities →
    PrimFloat.leb cutoff (Difflib.real_quick_ratio (chars x) (chars word))
    && PrimFloat.leb cutoff (Difflib.quick_ratio (chars x) (chars word))
    && PrimFloat.leb cutoff (Difflib.ratio (chars x) (chars word)) = false.
Proof.
  unfold Difflib.get_close_matches.
  match goal with |- context [omap ?f possibilities] => set (keep := f) end.
  destruct (omap keep possibilities) as [|y r] eqn:E; [|done].
  intros _ x Hx.
  destruct (PrimFloat.leb cutoff (Difflib.real_quick_ratio _ _)
            && PrimFloat.leb cutoff (Difflib.quick_ratio _ _)
            && PrimFloat.leb cutoff (Difflib.ratio (chars x) (chars word)))
    eqn:Hpass; [|done].
  assert (Hin : (Difflib.ratio (chars x) (chars word), x)
                ∈ omap keep possibilities).
  { apply list_elem_of_omap. exists x. split; [by apply list_elem_of_In|].
    unfold keep. by rewrite Hpass. }
  rewrite E in Hin. by apply elem_of_nil in Hin.
Qed.

Lemma rows_of_disease df m :
  In m (map disease df) →
  ∃ row rest, List.filter (λ row, String.eqb (disease row) m) df = row :: rest
              ∧ In row df ∧ disease row = m.
Proof.
  intros (row & Hd & Hin)%in_map_iff.
  assert (Hf : In row (List.filter (λ row, String.eqb (disease row) m) df)).
  { apply filter_In. split; [done|]. by apply String.eqb_eq. }
  destruct (List.filter _ df) as [|r rest] eqn:E; [done|].
  exists r, rest. split; [done|].
  assert (Hr : In r (List.filter (λ row, String.eqb (disease row) m) df))
    by (rewrite E; left; done).
  apply filter_In in Hr as [Hr1 Hr2]. split; [done|]. by apply String.eqb_eq.
Qed.












End MatcherFacts.


(** ** The dispatchers *)

Section Dispatch.

Local Open Scope list_scope.

Variable net : Smtp.
Variables period today_str : string.

Lemma effect_refl w : effect period today_str w w [].
Proof.
  unfold effect, apply_writes. simpl. by rewrite !app_nil_r.
Qed.

Lemma effect_trans w1 w2 w3 atts1 atts2 :
  effect period today_str w1 w2 atts1 →
  effect period today_str w2 w3 atts2 →
  effect period today_str w1 w3 (atts1 ++ atts2).
Proof.
  unfold effect, apply_writes. intros (Ho1 & Hw1 & Hc1) (Ho2 & Hw2 & Hc2).
  rewrite Ho2, Ho1, Hw2, Hw1, Hc2, Hc1.
  rewrite List.filter_app, map_app, fold_left_app, !app_assoc. done.
Qed.

Lemma effect_emit w line : effect period today_str w (snd (emit line w)) [].
Proof. unfold effect, apply_writes. simpl. by rewrite !app_nil_r. Qed.

(** One iteration of [send_batch_for_period] on an eligible record: one
    attempt; the write and the count of sent follow success, the line in the
    log and the count of failed follow failure. *)
Lemma batch_step_eligible p sent_count fail_count w :
  eligible period today_str p = true →
  let m := reminder_mail period today_str p in
  let ok := net (outbox w) m in
  let a := {| att_for := _id p; att_mail := m; att_ok := ok |} in
  Scheduler.batch_step net period today_str p (sent_count, fail_count) w
  = if ok
    then (Ok (S sent_count, fail_count),
          {| patients_col :=
               update_first (_id p) (marker period) (VStr today_str)
                 (patients_col w);
             outbox := outbox w ++ [a];
             writes := writes w ++ [marker_write period today_str a];
             log := log w ++ [LogEmailSent (mail_to m)] |})
    else (Ok (sent_count, S fail_count),
          {| patients_col := patients_col w;
             outbox := outbox w ++ [a];
             writes := writes w;
             log := log w ++ [LogEmailFailed (mail_to m)] |}).
Proof.
  unfold eligible. intros [[Hm Hk]%andb_true_iff Hv]%andb_true_iff.
  apply negb_true_iff in Hk, Hv. unfold marked, marker in Hk.
  unfold invalid_email in Hv.
  unfold Scheduler.batch_step. rewrite Hm, Hk, Hv. simpl negb. cbv iota.
  unfold Scheduler.send_email, try_except, mbind, M_bind, smtp_send, emit,
    update_one, mret, M_ret. simpl.
  fold (reminder_mail period today_str p).
  destruct (net (outbox w) (reminder_mail period today_str p)) eqn:E;
    reflexivity.
Qed.

(** On any other record the iteration is a [continue]: nothing is sent,
    nothing is written, the counts stay. *)
Lemma batch_step_skipped p c w :
  eligible period today_str p = false →
  ∃ w' lines,
    Scheduler.batch_step net period today_str p c w = (Ok c, w')
    ∧ patients_col w' = patients_col w
    ∧ outbox w' = outbox w
    ∧ writes w' = writes w
    ∧ log w' = log w ++ lines
    ∧ ∀ a : value, ¬ In (LogEmailFailed a) lines.
Proof.
  unfold eligible, marked, marker, invalid_email. intros H.
  unfold Scheduler.batch_step. destruct c as [sent_count fail_count].
  destruct (Scheduler.patient_matches_period _ _); simpl in *.
  2: { exists w, []. rewrite app_nil_r. repeat split; auto. }
  destruct (value_eqb _ _); simpl in *.
  { exists w, []. rewrite app_nil_r. repeat split; auto. }
  apply negb_false_iff in H. rewrite H.
  eexists _, [_]. unfold mbind, M_bind, emit, mret, M_ret. simpl.
  repeat split; try reflexivity. intros a [Ha | []]. discriminate.
Qed.

(** The loop of [send_batch_for_period]: it never raises, it attempts the
    eligible records of the cursor, all of them and in order, and counts. *)
Lemma batch_loop l : ∀ c w,
  ∃ c' w' atts lines,
    for_each l (Scheduler.batch_step net period today_str) c w = (Ok c', w')
    ∧ effect period today_str w w' atts
    ∧ map att_for atts = map _id (List.filter (eligible period today_str) l)
    ∧ c'.1 = c.1 + length (List.filter att_ok atts)
    ∧ c'.2 = c.2 + length (List.filter (λ a, negb (att_ok a)) atts)
    ∧ log w' = log w ++ lines
    ∧ (∀ a, In a atts → att_ok a = false →
            In (LogEmailFailed (mail_to (att_mail a))) lines).
Proof.
  induction l as [|p l IH]; intros c w.
  - exists c, w, [], []. simpl. rewrite app_nil_r.
    split; [done|]. split; [apply effect_refl|]. split; [done|].
    split; [lia|]. split; [lia|]. split; [done|]. intros a [].
  - cbn [for_each]. unfold mbind, M_bind.
    destruct (eligible period today_str p) eqn:Hel.
    + destruct c as [sent_count fail_count].
      rewrite (batch_step_eligible p sent_count fail_count w Hel). cbv zeta.
      set (m := reminder_mail period today_str p).
      set (a := {| att_for := _id p; att_mail := m;
                   att_ok := net (outbox w) m |}).
      destruct (net (outbox w) m) eqn:Hok.
      * match goal with |- context [for_each l _ ?c1 ?w1] =>
          destruct (IH c1 w1) as (c' & w' & atts & lines & Hrun & Heff & Hids
                                  & Hs & Hf & Hlog & Hfail) end.
        exists c', w', (a :: atts), (LogEmailSent (mail_to m) :: lines).
        rewrite Hrun. simpl in *. rewrite Hel.
        split; [done|]. split.
        { change (a :: atts) with ([a] ++ atts).
          eapply effect_trans; [|exact Heff].
          unfold effect, apply_writes. simpl. done. }
        subst a. simpl.
        split; [by rewrite Hids|]. split; [lia|]. split; [lia|].
        split; [by rewrite Hlog, <- app_assoc|].
        intros b [<- | Hb] Hbf; [simpl in Hbf; congruence|]. right. auto.
      * match goal with |- context [for_each l _ ?c1 ?w1] =>
          destruct (IH c1 w1) as (c' & w' & atts & lines & Hrun & Heff & Hids
                                  & Hs & Hf & Hlog & Hfail) end.
        exists c', w', (a :: atts), (LogEmailFailed (mail_to m) :: lines).
        rewrite Hrun. simpl in *. rewrite Hel.
        split; [done|]. split.
        { change (a :: atts) with ([a] ++ atts).
          eapply effect_trans; [|exact Heff].
          unfold effect, apply_writes. simpl. by rewrite app_nil_r. }
        subst a. simpl.
        split; [by rewrite Hids|]. split; [lia|]. split; [lia|].
        split; [by rewrite Hlog, <- app_assoc|].
        intros b [<- | Hb] Hbf; [by left|]. right. auto.
    + destruct (batch_step_skipped p c w Hel)
        as (w1 & lines1 & -> & Hc1 & Ho1 & Hw1 & Hl1 & Hnf1).
      destruct (IH c w1) as (c' & w' & atts & lines & Hrun & Heff & Hids
                             & Hs & Hf & Hlog & Hfail).
      exists c', w', atts, (lines1 ++ lines). rewrite Hrun. simpl. rewrite Hel.
      split; [done|]. split.
      { destruct Heff as (He1 & He2 & He3). unfold effect.
        by rewrite He1, He2, He3, Ho1, Hw1, Hc1. }
      split; [done|]. split; [done|]. split; [done|].
      split; [by rewrite Hlog, Hl1, <- app_assoc|].
      intros b Hb Hbf. apply in_or_app. right. auto.
Qed.

(** [send_batch_for_period] as a whole. *)
Lemma send_batch_run w :
  ∃ sent failed w' atts lines,
    Scheduler.send_batch_for_period net today_str period w
    = (Ok (sent, failed), w')
    ∧ effect period today_str w w' atts
    ∧ map att_for atts
      = map _id (List.filter (eligible period today_str) (patients_col w))
    ∧ sent = length (List.filter att_ok atts)
    ∧ failed = length (List.filter (λ a, negb (att_ok a)) atts)
    ∧ log w' = log w ++ [LogRunning period today_str] ++ lines
                     ++ [LogCompleted period sent failed]
    ∧ (∀ a, In a atts → att_ok a = false →
            In (LogEmailFailed (mail_to (att_mail a))) lines).
Proof.
  unfold Scheduler.send_batch_for_period, mbind, M_bind, find_all.
  cbn [emit patients_col].
  match goal with |- context [for_each _ _ ?c1 ?w1] =>
    destruct (batch_loop (patients_col w) c1 w1)
      as ([sent failed] & w' & atts & lines & Hrun & Heff & Hids & Hs & Hf
          & Hlog & Hfail) end.
  rewrite Hrun. simpl in Hs, Hf, Hlog.
  eexists sent, failed, _, atts, lines. split; [reflexivity|].
  destruct Heff as (He1 & He2 & He3). simpl in He1, He2, He3.
  split; [by unfold effect; simpl|]. split; [done|]. split; [done|].
  split; [done|]. split; [|done]. simpl. by rewrite Hlog, <- !app_assoc.
Qed.

(** *** The collection under [update_one] *)

Lemma update_first_ids i f v l : map _id (update_first i f v l) = map _id l.
Proof.
  induction l as [|q l IH]; simpl; [done|].
  destruct (Nat.eqb (_id q) i); simpl; [done|]. by rewrite IH.
Qed.

Lemma apply_writes_ids atts col :
  map _id (apply_writes period today_str atts col) = map _id col.
Proof.
  unfold apply_writes. revert col.
  induction (List.filter att_ok atts) as [|a oks IH]; intros col; simpl; [done|].
  by rewrite IH, update_first_ids.
Qed.

Lemma update_first_other i f v l p :
  _id p ≠ i → In p l → In p (update_first i f v l).
Proof.
  intros Hne. induction l as [|q l IH]; simpl; [done|].
  destruct (Nat.eqb (_id q) i) eqn:E.
  - apply Nat.eqb_eq in E. intros [-> | Hin]; [done|]. by right.
  - intros [-> | Hin]; [by left|]. right. auto.
Qed.

Lemma update_first_hit f v l p :
  NoDup (map _id l) → In p l →
  In (set_field f v p) (update_first (_id p) f v l).
Proof.
  induction l as [|q l IH]; simpl; [done|].
  intros Hnd Hin. apply NoDup_cons in Hnd as [Hq Hnd].
  destruct (Nat.eqb (_id q) (_id p)) eqn:E.
  - apply Nat.eqb_eq in E. destruct Hin as [-> | Hin]; [by left|].
    exfalso. apply Hq. rewrite E. apply list_elem_of_In, in_map_iff. eauto.
  - destruct Hin as [-> | Hin]; [by rewrite Nat.eqb_refl in E|]. right. auto.
Qed.

Lemma set_field_twice f v p : set_field f v (set_field f v p) = set_field f v p.
Proof. unfold set_field. simpl. by rewrite insert_insert_eq. Qed.

Lemma marked_set_field p :
  marked period today_str (set_field (marker period) (VStr today_str) p) = true.
Proof.
  unfold marked, get, set_field. simpl. rewrite lookup_insert_eq. simpl.
  apply String.eqb_refl.
Qed.

(** A record none of the successful attempts is for stays as it is. *)
Lemma apply_writes_untouched atts col p :
  (∀ a, In a atts → att_ok a = true → att_for a ≠ _id p) →
  In p col → In p (apply_writes period today_str atts col).
Proof.
  unfold apply_writes. intros H.
  assert (H' : ∀ a, In a (List.filter att_ok atts) → att_for a ≠ _id p).
  { intros a [Ha Hok]%filter_In. auto. }
  clear H. revert col.
  induction (List.filter att_ok atts) as [|a oks IH]; intros col Hin; simpl;
    [done|].
  apply IH; [intros b Hb; apply H'; by right|].
  apply update_first_other; [|done]. intros E. apply (H' a); [by left|done].
Qed.

(** A record with a successful attempt carries the marker afterwards. *)
Lemma apply_writes_written atts col p :
  NoDup (map _id col) → In p col →
  (∃ a, In a atts ∧ att_ok a = true ∧ att_for a = _id p) →
  In (set_field (marker period) (VStr today_str) p)
     (apply_writes period today_str atts col).
Proof.
  unfold apply_writes. intros Hnd Hin (a0 & Ha0 & Hok0 & Hid0).
  assert (Hex : ∃ a, In a (List.filter att_ok atts) ∧ att_for a = _id p).
  { exists a0. split; [|done]. apply filter_In. done. }
  clear a0 Ha0 Hok0 Hid0. revert col p Hnd Hin Hex.
  induction (List.filter att_ok atts) as [|a oks IH];
    intros col p Hnd Hin (b & Hb & Hid); simpl; [done|].
  set (col1 := update_first (att_for a) (marker period) (VStr today_str) col).
  assert (Hnd1 : NoDup (map _id col1)) by (unfold col1; by rewrite update_first_ids).
  destruct (existsb (λ x, Nat.eqb (att_for x) (_id p)) oks) eqn:Elater.
  - apply existsb_exists in Elater as (b' & Hb' & E%Nat.eqb_eq).
    destruct (Nat.eq_dec (att_for a) (_id p)) as [Ea | Ea].
    + rewrite <- (set_field_twice _ _ p).
      apply IH; [done| |].
      * unfold col1. rewrite Ea. by apply update_first_hit.
      * exists b'. simpl. done.
    + apply IH; [done| |eauto].
      unfold col1. apply update_first_other; [congruence|done].
  - destruct Hb as [<- | Hb].
    2: { exfalso. apply not_true_iff_false in Elater. apply Elater.
         apply existsb_exists. exists b. split; [done|]. by apply Nat.eqb_eq. }
    assert (Hno : ∀ x, In x oks → att_for x ≠ _id p).
    { intros x Hx E. apply not_true_iff_false in Elater. apply Elater.
      apply existsb_exists. exists x. split; [done|]. by apply Nat.eqb_eq. }
    assert (Hin1 : In (set_field (marker period) (VStr today_str) p) col1).
    { unfold col1. rewrite Hid. by apply update_first_hit. }
    clear IH Hnd1. revert Hin1. generalize col1.
    induction oks as [|x oks IHo]; intros c Hc; simpl; [done|].
    apply IHo.
    + simpl in Elater. by apply orb_false_iff in Elater as [_ ?].
    + intros y Hy. apply Hno. by right.
    + apply update_first_other; [|done]. simpl. intros E.
      apply (Hno x); [by left|done].
Qed.

Lemma filter_sublist_ids (f g : patient → bool) l :
  (∀ q, f q = true → g q = true) →
  sublist (map _id (List.filter f l)) (map _id (List.filter g l)).
Proof.
  intros Hfg. induction l as [|q l IH]; simpl; [constructor|].
  destruct (f q) eqn:Ef.
  - rewrite (Hfg q Ef). simpl. by constructor.
  - destruct (g q); simpl; [by constructor|done].
Qed.

Lemma eligible_unmarked q :
  eligible period today_str q = true → negb (marked period today_str q) = true.
Proof.
  unfold eligible. by intros [[_ H]%andb_true_iff _]%andb_true_iff.
Qed.

(** *** The job of app.py *)

Lemma matches_period_pure v w r w1 :
  App.matches_period v period w = (r, w1) → w1 = w.
Proof.
  unfold App.matches_period, raise, mret, M_ret.
  destruct (negb (truthy v)); [by intros [= _ <-]|].
  destruct v; try (by intros [= _ <-]).
  destruct (App.patterns !! period); by intros [= _ <-].
Qed.

(** [send_reminder_email]: without the key [email] the [KeyError] of the
    handler escapes and nothing is sent; otherwise one attempt, reported. *)
Lemma send_reminder_email_spec p w :
  App.send_reminder_email net p period w
  = match doc p !! "email" with
    | None => (Raise (KeyError "email"), w)
    | Some to =>
        let m := app_reminder_mail period p to in
        let a := {| att_for := _id p; att_mail := m;
                    att_ok := net (outbox w) m |} in
        if net (outbox w) m
        then (Ok true,
              {| patients_col := patients_col w; outbox := outbox w ++ [a];
                 writes := writes w;
                 log := log w ++ [PrintSent (PyStr.capitalize period) to] |})
        else (Ok false,
              {| patients_col := patients_col w; outbox := outbox w ++ [a];
                 writes := writes w; log := log w ++ [PrintFailed to] |})
    end.
Proof.
  unfold App.send_reminder_email, try_except, App.index, mbind, M_bind, raise,
    smtp_send, emit, mret, M_ret.
  destruct (doc p !! "email") as [to|]; simpl; [|done].
  fold (app_reminder_mail period p to).
  by destruct (net (outbox w) (app_reminder_mail period p to)).
Qed.

(** One iteration of [run_reminder_job]: at most one attempt, for a record
    without today's marker; a returned count has grown by the successes. *)
Lemma job_step_effect p n w :
  ∃ r w' atts,
    App.job_step net period today_str p n w = (r, w')
    ∧ effect period today_str w w' atts
    ∧ (atts = []
       ∨ (marked period today_str p = false ∧ map att_for atts = [_id p]))
    ∧ (∀ n', r = Ok n' → n' = n + length (List.filter att_ok atts)).
Proof.
  unfold App.job_step, mbind, M_bind.
  destruct (App.matches_period _ period w) as [r1 w1] eqn:Hm.
  apply matches_period_pure in Hm as Hw. subst w1.
  assert (Hskip : ∀ r, (∀ n', r = Ok n' → n' = n) →
            ∃ r' w' atts, (r, w) = (r', w') ∧ effect period today_str w w' atts
              ∧ (atts = [] ∨ (marked period today_str p = false
                              ∧ map att_for atts = [_id p]))
              ∧ (∀ n', r' = Ok n' → n' = n + length (List.filter att_ok atts))).
  { intros r Hr. exists r, w, []. split; [done|]. split; [apply effect_refl|].
    split; [by left|]. simpl. intros n' Hn'. rewrite (Hr n' Hn'). lia. }
  destruct r1 as [[|]|e].
  2: { apply Hskip. unfold mret, M_ret. by intros n' [= <-]. }
  2: { apply Hskip. by intros n'. }
  fold (marker period). fold (marked period today_str p).
  destruct (marked period today_str p) eqn:Hk.
  { apply Hskip. unfold mret, M_ret. by intros n' [= <-]. }
  rewrite send_reminder_email_spec.
  destruct (doc p !! "email") as [to|]; [|by apply Hskip].
  cbv zeta. set (m := app_reminder_mail period p to).
  destruct (net (outbox w) m) eqn:Hok.
  - unfold update_one, mret, M_ret. simpl.
    eexists _, _, [{| att_for := _id p; att_mail := m; att_ok := true |}].
    split; [reflexivity|]. split; [by unfold effect, apply_writes|].
    split; [by right|]. simpl. intros n' [= <-]. lia.
  - unfold mret, M_ret.
    eexists _, _, [{| att_for := _id p; att_mail := m; att_ok := false |}].
    split; [reflexivity|].
    split; [unfold effect, apply_writes; simpl; by rewrite app_nil_r|].
    split; [by right|]. simpl. intros n' [= <-]. lia.
Qed.

(** The loop of [run_reminder_job], up to its end or to the exception that
    leaves it. *)
Lemma job_loop l : ∀ n w,
  ∃ r w' atts,
    for_each l (App.job_step net period today_str) n w = (r, w')
    ∧ effect period today_str w w' atts
    ∧ sublist (map att_for atts)
        (map _id (List.filter (λ q, negb (marked period today_str q)) l))
    ∧ (∀ n', r = Ok n' → n' = n + length (List.filter att_ok atts)).
Proof.
  induction l as [|p l IH]; intros n w.
  - exists (Ok n), w, []. split; [done|]. split; [apply effect_refl|].
    split; [constructor|]. simpl. intros n' [= <-]. lia.
  - cbn [for_each]. unfold mbind, M_bind.
    destruct (job_step_effect p n w) as (r1 & w1 & atts1 & -> & Heff1 & Hat1 & Hn1).
    assert (Hsub1 : ∀ tl, sublist tl
                (map _id (List.filter (λ q, negb (marked period today_str q)) l)) →
              sublist (map att_for atts1 ++ tl)
                (map _id (List.filter (λ q, negb (marked period today_str q))
                            (p :: l)))).
    { intros tl Htl. simpl. destruct Hat1 as [-> | [Hk ->]].
      - simpl. destruct (negb (marked period today_str p)); simpl;
          [by constructor|done].
      - rewrite Hk. simpl. by constructor. }
    destruct r1 as [n1|e].
    + destruct (IH n1 w1) as (r & w' & atts & -> & Heff & Hsub & Hn).
      exists r, w', (atts1 ++ atts). split; [done|].
      split; [by eapply effect_trans|]. rewrite map_app.
      split; [by apply Hsub1|]. intros n' Hr. rewrite List.filter_app, length_app.
      rewrite (Hn n' Hr), (Hn1 n1 eq_refl). lia.
    + exists (Raise e), w1, atts1. split; [done|]. split; [done|].
      split; [|by intros n'].
      rewrite <- (app_nil_r (map att_for atts1)). apply Hsub1.
      apply sublist_nil_l.
Qed.

(** [run_reminder_job] as a whole. *)
Lemma run_reminder_job_run w :
  ∃ r w' atts,
    App.run_reminder_job net today_str period w = (r, w')
    ∧ effect period today_str w w' atts
    ∧ sublist (map att_for atts)
        (map _id (List.filter (λ q, negb (marked period today_str q))
                    (patients_col w)))
    ∧ (∀ n, r = Ok n → n = length (List.filter att_ok atts)).
Proof.
  unfold App.run_reminder_job, mbind, M_bind, find_all.
  destruct (job_loop (patients_col w) 0 w) as (r & w' & atts & -> & Heff & Hsub & Hn).
  destruct r as [n|e].
  - eexists _, _, atts. split; [reflexivity|].
    split; [by unfold effect in *; simpl|]. split; [done|].
    unfold mret, M_ret. intros n' [= <-]. by apply Hn.
  - exists (Raise e), w', atts. split; [done|]. split; [done|].
    split; [done|]. by intros n.
Qed.

Lemma run_reminder_job_respects_markers :
  respects_markers period today_str
    (App.run_reminder_job net today_str period).
Proof.
  intros w. destruct (run_reminder_job_run w) as (r & w' & atts & Hrun & Heff & Hsub & _).
  exists atts. by rewrite Hrun.
Qed.

(** [send_batch_for_period] only attempts records without today's marker. *)
Lemma send_batch_respects_markers :
  respects_markers period today_str
    (Scheduler.send_batch_for_period net today_str period).
Proof.
  intros w.
  destruct (send_batch_run w)
    as (sent & failed & w' & atts & lines & Hrun & Heff & Hids & _).
  exists atts. rewrite Hrun. simpl. split; [done|]. rewrite Hids.
  apply filter_sublist_ids, eligible_unmarked.
Qed.

(** *** What the attempts tell about the collection *)

Lemma ids_injective l p q :
  NoDup (map _id l) → In p l → In q l → _id p = _id q → p = q.
Proof.
  induction l as [|x l IH]; simpl; [done|].
  intros [Hx Hnd]%NoDup_cons [-> | Hp] [-> | Hq] E; auto.
  - exfalso. apply Hx. rewrite E. apply list_elem_of_In, in_map_iff. eauto.
  - exfalso. apply Hx. rewrite <- E. apply list_elem_of_In, in_map_iff. eauto.
Qed.

Lemma attempts_for_none i atts :
  ¬ In i (map att_for atts) → attempts_for i atts = [].
Proof.
  unfold attempts_for. induction atts as [|a atts IH]; simpl; [done|].
  intros H. destruct (Nat.eqb (att_for a) i) eqn:E.
  - apply Nat.eqb_eq in E. exfalso. apply H. by left.
  - apply IH. intros Hin. apply H. by right.
Qed.

Lemma effect_new_attempts w w' atts :
  effect period today_str w w' atts → new_attempts w w' = atts.
Proof.
  intros (Ho & _). unfold new_attempts. rewrite Ho. apply drop_app_length.
Qed.

Lemma effect_new_writes w w' atts :
  effect period today_str w w' atts →
  new_writes w w' = map (marker_write period today_str) (List.filter att_ok atts).
Proof.
  intros (_ & Hw & _). unfold new_writes. rewrite Hw. apply drop_app_length.
Qed.

(** A record that carries today's marker is not among the attempted. *)
Lemma marked_not_attempted col atts p :
  NoDup (map _id col) → In p col → marked period today_str p = true →
  sublist (map att_for atts)
    (map _id (List.filter (λ q, negb (marked period today_str q)) col)) →
  ¬ In (_id p) (map att_for atts).
Proof.
  intros Hnd Hp Hk Hsub Hin.
  apply list_elem_of_In in Hin. eapply elem_of_sublist in Hin; [|exact Hsub].
  apply list_elem_of_In, in_map_iff in Hin as (q & Hid & [Hq Hqk]%filter_In).
  assert (q = p) as -> by (by apply (ids_injective col)).
  rewrite Hk in Hqk. done.
Qed.

(** Whatever the number of runs, a job that respects the markers makes no
    attempt for a record that carries today's marker, and leaves it alone. *)
Lemma marked_record_left_alone {A : Type} (job : M A) :
  respects_markers period today_str job →
  ∀ n w p,
    NoDup (map _id (patients_col w)) → In p (patients_col w) →
    marked period today_str p = true →
    ∃ more,
      outbox (run_many job n w) = outbox w ++ more
      ∧ attempts_for (_id p) more = []
      ∧ In p (patients_col (run_many job n w))
      ∧ NoDup (map _id (patients_col (run_many job n w))).
Proof.
  intros Hjob. induction n as [|n IH]; intros w p Hnd Hp Hk; simpl.
  - exists []. by rewrite app_nil_r.
  - destruct (Hjob w) as (atts & Heff & Hsub).
    pose proof (marked_not_attempted _ _ _ Hnd Hp Hk Hsub) as Hnot.
    destruct Heff as (Ho & Hw & Hc).
    destruct (IH (snd (job w)) p) as (more & Ho' & Hnone & Hp' & Hnd'); [| |done|].
    + by rewrite Hc, apply_writes_ids.
    + rewrite Hc. apply apply_writes_untouched; [|done].
      intros a Ha _ E. apply Hnot, in_map_iff. eauto.
    + exists (atts ++ more). rewrite Ho', Ho, <- app_assoc. split; [done|].
      split; [|done]. unfold attempts_for in *. rewrite List.filter_app, Hnone.
      fold (attempts_for (_id p) atts). by rewrite attempts_for_none.
Qed.

(** C1.  A record whose marker for the period equals today's date gets no
    reminder for that period, from either dispatcher, however many times
    the job runs that day; so after a first run, the records it marked (and
    those marked before) are sent nothing by any later run. *)
Theorem reminder_job_idempotent :
  (∀ n w p,
     NoDup (map _id (patients_col w)) → In p (patients_col w) →
     marked period today_str p = true →
     attempts_for (_id p)
       (new_attempts w
          (run_many (Scheduler.send_batch_for_period net today_str period) n w))
     = []
     ∧ attempts_for (_id p)
         (new_attempts w
            (run_many (App.run_reminder_job net today_str period) n w))
       = [])
  ∧ (∀ n w0 p,
       NoDup (map _id (patients_col w0)) →
       In p (patients_col
               (snd (Scheduler.send_batch_for_period net today_str period w0))) →
       marked period today_str p = true →
       attempts_for (_id p)
         (new_attempts
            (snd (Scheduler.send_batch_for_period net today_str period w0))
            (run_many (Scheduler.send_batch_for_period net today_str period) n
               (snd (Scheduler.send_batch_for_period net today_str period w0))))
       = [])
  ∧ (∀ n w0 p,
       NoDup (map _id (patients_col w0)) →
       In p (patients_col
               (snd (App.run_reminder_job net today_str period w0))) →
       marked period today_str p = true →
       attempts_for (_id p)
         (new_attempts
            (snd (App.run_reminder_job net today_str period w0))
            (run_many (App.run_reminder_job net today_str period) n
               (snd (App.run_reminder_job net today_str period w0))))
       = []).
Proof.
  assert (Hgen : ∀ (A : Type) (job : M A), respects_markers period today_str job →
            ∀ n w p, NoDup (map _id (patients_col w)) → In p (patients_col w) →
              marked period today_str p = true →
              attempts_for (_id p) (new_attempts w (run_many job n w)) = []).
  { intros A job Hjob n w p Hnd Hp Hk.
    destruct (marked_record_left_alone job Hjob n w p Hnd Hp Hk)
      as (more & Ho & Hnone & _).
    unfold new_attempts. by rewrite Ho, drop_app_length. }
  assert (Hnd1 : ∀ (A : Type) (job : M A), respects_markers period today_str job →
            ∀ w0, NoDup (map _id (patients_col w0)) →
                  NoDup (map _id (patients_col (snd (job w0))))).
  { intros A job Hjob w0 Hnd. destruct (Hjob w0) as (atts & (_ & _ & Hc) & _).
    by rewrite Hc, apply_writes_ids. }
  split; [|split].
  - intros n w p Hnd Hp Hk. split.
    + by apply Hgen; [apply send_batch_respects_markers|..].
    + by apply Hgen; [apply run_reminder_job_respects_markers|..].
  - intros n w0 p Hnd Hp Hk.
    apply Hgen; [apply send_batch_respects_markers| |done|done].
    by apply Hnd1; [apply send_batch_respects_markers|].
  - intros n w0 p Hnd Hp Hk.
    apply Hgen; [apply run_reminder_job_respects_markers| |done|done].
    by apply Hnd1; [apply run_reminder_job_respects_markers|].
Qed.

Lemma filter_sublist_all (f : patient → bool) l :
  sublist (map _id (List.filter f l)) (map _id l).
Proof.
  induction l as [|q l IH]; simpl; [constructor|].
  destruct (f q); simpl; by constructor.
Qed.

Lemma filter_ok_sublist (atts : list Attempt) :
  sublist (map att_for (List.filter att_ok atts)) (map att_for atts).
Proof.
  induction atts as [|a atts IH]; simpl; [constructor|].
  destruct (att_ok a); simpl; by constructor.
Qed.

(** The accounts of a run that makes the attempts [atts], each for a record
    of the collection and no two for the same: the writes are the markers
    of the successes, one record each, and every other record is as it
    was. *)
Lemma effect_accounts w w' atts :
  NoDup (map _id (patients_col w)) →
  effect period today_str w w' atts →
  sublist (map att_for atts) (map _id (patients_col w)) →
  new_attempts w w' = atts
  ∧ new_writes w w'
    = map (marker_write period today_str) (List.filter att_ok (new_attempts w w'))
  ∧ NoDup (map w_id (new_writes w w'))
  ∧ (∀ x, In x (new_writes w w') →
          w_field x = marker period ∧ w_value x = VStr today_str
          ∧ ∃ q, In q (patients_col w) ∧ _id q = w_id x
                 ∧ In (set_field (marker period) (VStr today_str) q)
                      (patients_col w'))
  ∧ (∀ q, In q (patients_col w) →
          (∃ a, In a (new_attempts w w') ∧ att_ok a = true ∧ att_for a = _id q) →
          In (set_field (marker period) (VStr today_str) q) (patients_col w'))
  ∧ (∀ q, In q (patients_col w) →
          (∀ a, In a (new_attempts w w') → att_for a = _id q → att_ok a = false) →
          In q (patients_col w')).
Proof.
  intros Hnd Heff Hsub.
  rewrite (effect_new_writes _ _ _ Heff), (effect_new_attempts _ _ _ Heff).
  destruct Heff as (Ho & Hw & Hc).
  assert (Hwritten : ∀ q, In q (patients_col w) →
            (∃ a, In a atts ∧ att_ok a = true ∧ att_for a = _id q) →
            In (set_field (marker period) (VStr today_str) q) (patients_col w')).
  { intros q Hq Hex. rewrite Hc. by apply apply_writes_written. }
  split; [done|]. split; [done|]. split.
  { rewrite map_map. simpl. change (map (λ a, att_for a)) with (map att_for).
    eapply sublist_NoDup; [|apply filter_ok_sublist].
    eapply sublist_NoDup; [exact Hnd|exact Hsub]. }
  split.
  { intros x (a & <- & [Ha Hok]%filter_In)%in_map_iff. simpl.
    split; [done|]. split; [done|].
    assert (Hid : att_for a ∈ map _id (patients_col w)).
    { eapply elem_of_sublist; [|exact Hsub].
      apply list_elem_of_In, in_map_iff. eauto. }
    apply list_elem_of_In, in_map_iff in Hid as (q & Hid & Hq).
    exists q. split; [done|]. split; [done|]. apply Hwritten; eauto. }
  split; [done|].
  intros q Hq Hnone. rewrite Hc. apply apply_writes_untouched; [|done].
  intros a Ha Hok E. rewrite (Hnone a Ha E) in Hok. done.
Qed.

(** C5.  [send_batch_for_period] never raises.  It calls the mail server
    once for every eligible record, in order, whatever happened to the
    records before; it writes today's date into the marker of a record
    exactly when the send for it succeeded and leaves the record as it was
    when the send failed; a failure is logged; and the last line of the log
    is the summary with the counts of sent and failed. *)
Theorem batch_failure_is_contained w :
  NoDup (map _id (patients_col w)) →
  ∃ sent failed w',
    Scheduler.send_batch_for_period net today_str period w
    = (Ok (sent, failed), w')
    ∧ map att_for (new_attempts w w')
      = map _id (List.filter (eligible period today_str) (patients_col w))
    ∧ new_writes w w'
      = map (marker_write period today_str)
          (List.filter att_ok (new_attempts w w'))
    ∧ sent = length (List.filter att_ok (new_attempts w w'))
    ∧ failed = length (List.filter (λ a, negb (att_ok a)) (new_attempts w w'))
    ∧ last (log w') = Some (LogCompleted period sent failed)
    ∧ (∀ a, In a (new_attempts w w') → att_ok a = false →
            In (LogEmailFailed (mail_to (att_mail a))) (new_log w w'))
    ∧ (∀ p, In p (patients_col w) →
            (∃ a, In a (new_attempts w w') ∧ att_ok a = true
                  ∧ att_for a = _id p) →
            In (set_field (marker period) (VStr today_str) p)
               (patients_col w'))
    ∧ (∀ p, In p (patients_col w) →
            (∀ a, In a (new_attempts w w') → att_for a = _id p →
                  att_ok a = false) →
            In p (patients_col w')).
Proof.
  intros Hnd.
  destruct (send_batch_run w)
    as (sent & failed & w' & atts & lines & Hrun & Heff & Hids & Hs & Hf
        & Hlog & Hfail).
  assert (Hsub : sublist (map att_for atts) (map _id (patients_col w)))
    by (rewrite Hids; apply filter_sublist_all).
  destruct (effect_accounts w w' atts Hnd Heff Hsub)
    as (Hatts & Hwrites & _ & _ & Hwritten & Huntouched).
  exists sent, failed, w'. rewrite Hatts in *.
  split; [done|]. split; [done|]. split; [done|]. split; [done|].
  split; [done|]. split.
  { rewrite Hlog, !app_assoc. apply last_snoc. }
  split; [|done].
  intros a Ha Hok. unfold new_log. rewrite Hlog, drop_app_length.
  cbn [app]. right. apply in_or_app. left. auto.
Qed.

(** C10.  In one run the count of sent is the number of marker writes of
    that run: the writes are those of the successful sends, each for a
    record of its own and with today's date, and a record without a
    successful send is left as it was.  [send_batch_for_period] always
    reports its count; [run_reminder_job] reports it when it returns. *)
Theorem sent_count_is_marker_writes w :
  NoDup (map _id (patients_col w)) →
  (∃ sent failed w',
     Scheduler.send_batch_for_period net today_str period w
     = (Ok (sent, failed), w')
     ∧ sent = length (new_writes w w')
     ∧ new_writes w w'
       = map (marker_write period today_str)
           (List.filter att_ok (new_attempts w w'))
     ∧ NoDup (map w_id (new_writes w w'))
     ∧ (∀ x, In x (new_writes w w') →
             w_field x = marker period ∧ w_value x = VStr today_str
             ∧ ∃ q, In q (patients_col w) ∧ _id q = w_id x
                    ∧ In (set_field (marker period) (VStr today_str) q)
                         (patients_col w'))
     ∧ (∀ q, In q (patients_col w) →
             (∀ a, In a (new_attempts w w') → att_for a = _id q →
                   att_ok a = false) →
             In q (patients_col w')))
  ∧ (∃ r w',
       App.run_reminder_job net today_str period w = (r, w')
       ∧ (∀ sent, r = Ok sent → sent = length (new_writes w w'))
       ∧ new_writes w w'
         = map (marker_write period today_str)
             (List.filter att_ok (new_attempts w w'))
       ∧ NoDup (map w_id (new_writes w w'))
       ∧ (∀ x, In x (new_writes w w') →
               w_field x = marker period ∧ w_value x = VStr today_str
               ∧ ∃ q, In q (patients_col w) ∧ _id q = w_id x
                      ∧ In (set_field (marker period) (VStr today_str) q)
                           (patients_col w'))
       ∧ (∀ q, In q (patients_col w) →
               (∀ a, In a (new_attempts w w') → att_for a = _id q →
                     att_ok a = false) →
               In q (patients_col w'))).
Proof.
  intros Hnd. split.
  - destruct (send_batch_run w)
      as (sent & failed & w' & atts & lines & Hrun & Heff & Hids & Hs & _).
    assert (Hsub : sublist (map att_for atts) (map _id (patients_col w)))
      by (rewrite Hids; apply filter_sublist_all).
    destruct (effect_accounts w w' atts Hnd Heff Hsub)
      as (Hatts & Hwrites & Hnd' & Hx & _ & Huntouched).
    exists sent, failed, w'. split; [done|]. split.
    { rewrite Hwrites, length_map, Hatts. done. }
    done.
  - destruct (run_reminder_job_run w) as (r & w' & atts & Hrun & Heff & Hsub0 & Hn).
    assert (Hsub : sublist (map att_for atts) (map _id (patients_col w))).
    { etrans; [exact Hsub0|]. apply filter_sublist_all. }
    destruct (effect_accounts w w' atts Hnd Heff Hsub)
      as (Hatts & Hwrites & Hnd' & Hx & _ & Huntouched).
    exists r, w'. split; [done|]. split.
    { intros sent Hr. rewrite Hwrites, length_map, Hatts. by apply Hn. }
    done.
Qed.

(** *** Records without a usable address *)

Lemma invalid_email_of_field p :
  doc p !! "email" = None
  ∨ doc p !! "email" = Some (VStr "")
  ∨ (∃ v, doc p !! "email" = Some v ∧ PyStr.contains "@" (py_str v) = false) →
  invalid_email p = true.
Proof.
  unfold invalid_email, get_or. intros [-> | [-> | (v & -> & Hv)]]; simpl.
  - reflexivity.
  - reflexivity.
  - rewrite Hv. apply orb_true_r.
Qed.

Lemma invalid_not_eligible p :
  invalid_email p = true → eligible period today_str p = false.
Proof. unfold eligible. intros ->. apply andb_false_r. Qed.

Lemma for_each_app {A S : Type} (l1 l2 : list A) (body : A → S → M S) s w :
  for_each (l1 ++ l2) body s w
  = (s' ← for_each l1 body s; for_each l2 body s') w.
Proof.
  revert s w. induction l1 as [|x l1 IH]; intros s w; simpl; [done|].
  unfold mbind, M_bind in *. destruct (body x s w) as [[s1|e] w1]; [|done].
  apply IH.
Qed.

(** The counts and the mails of the loop depend on the world through the
    outbox only. *)
Lemma batch_loop_outbox l : ∀ c w1 w2,
  outbox w1 = outbox w2 →
  fst (for_each l (Scheduler.batch_step net period today_str) c w1)
  = fst (for_each l (Scheduler.batch_step net period today_str) c w2)
  ∧ outbox (snd (for_each l (Scheduler.batch_step net period today_str) c w1))
    = outbox (snd (for_each l (Scheduler.batch_step net period today_str) c w2)).
Proof.
  induction l as [|p l IH]; intros c w1 w2 Ho; [done|].
  cbn [for_each]. unfold mbind, M_bind.
  destruct (eligible period today_str p) eqn:Hel.
  - destruct c as [sent_count fail_count].
    rewrite (batch_step_eligible p sent_count fail_count w1 Hel),
      (batch_step_eligible p sent_count fail_count w2 Hel). cbv zeta.
    rewrite Ho.
    destruct (net (outbox w2) (reminder_mail period today_str p));
      apply IH; reflexivity.
  - destruct (batch_step_skipped p c w1 Hel) as (w1' & ? & -> & _ & Ho1 & _).
    destruct (batch_step_skipped p c w2 Hel) as (w2' & ? & -> & _ & Ho2 & _).
    apply IH. congruence.
Qed.

Lemma writes_for_none i atts :
  ¬ In i (map att_for atts) →
  writes_for i (map (marker_write period today_str) (List.filter att_ok atts))
  = [].
Proof.
  unfold writes_for. induction atts as [|a atts IH]; simpl; [done|].
  intros Hnot.
  assert (Hrest : ¬ In i (map att_for atts))
    by (intros H; apply Hnot; by right).
  destruct (att_ok a); simpl; [|auto].
  destruct (Nat.eqb (att_for a) i) eqn:E; [|auto].
  apply Nat.eqb_eq in E. exfalso. apply Hnot. by left.
Qed.

(** C8.  A record whose email is missing, empty or without an [@] is
    skipped by [send_batch_for_period]: its iteration returns with the
    counts it was given, sends nothing and writes nothing; in a run no
    attempt and no write is for it and it stays as it was; and the run
    sends the same mails and reports the same counts as on the collection
    without that record. *)
Theorem invalid_email_is_skipped p :
  doc p !! "email" = None
  ∨ doc p !! "email" = Some (VStr "")
  ∨ (∃ v, doc p !! "email" = Some v ∧ PyStr.contains "@" (py_str v) = false) →
  (∀ c w, ∃ w',
     Scheduler.batch_step net period today_str p c w = (Ok c, w')
     ∧ outbox w' = outbox w ∧ writes w' = writes w
     ∧ patients_col w' = patients_col w)
  ∧ (∀ w, NoDup (map _id (patients_col w)) → In p (patients_col w) →
       ∃ c w',
         Scheduler.send_batch_for_period net today_str period w = (Ok c, w')
         ∧ attempts_for (_id p) (new_attempts w w') = []
         ∧ writes_for (_id p) (new_writes w w') = []
         ∧ In p (patients_col w'))
  ∧ (∀ l1 l2 w w0,
       patients_col w = l1 ++ p :: l2 → patients_col w0 = l1 ++ l2 →
       outbox w0 = outbox w →
       fst (Scheduler.send_batch_for_period net today_str period w)
       = fst (Scheduler.send_batch_for_period net today_str period w0)
       ∧ outbox (snd (Scheduler.send_batch_for_period net today_str period w))
         = outbox (snd (Scheduler.send_batch_for_period net today_str period w0))).
Proof.
  intros Hinv%invalid_email_of_field.
  pose proof (invalid_not_eligible p Hinv) as Hel.
  split; [|split].
  - intros c w.
    destruct (batch_step_skipped p c w Hel) as (w' & lines & ? & ? & ? & ? & _).
    eauto.
  - intros w Hnd Hp.
    destruct (send_batch_run w)
      as (sent & failed & w' & atts & lines & Hrun & Heff & Hids & _).
    assert (Hnot : ¬ In (_id p) (map att_for atts)).
    { rewrite Hids. intros (q & Hid & [Hq Hqe]%filter_In)%in_map_iff.
      assert (q = p) as -> by (by apply (ids_injective (patients_col w))).
      congruence. }
    exists (sent, failed), w'. split; [done|].
    rewrite (effect_new_writes _ _ _ Heff), (effect_new_attempts _ _ _ Heff).
    split; [by apply attempts_for_none|]. split.
    + by apply writes_for_none.
    + destruct Heff as (_ & _ & ->). apply apply_writes_untouched; [|done].
      intros a Ha _ E. apply Hnot, in_map_iff. eauto.
  - intros l1 l2 w w0 Hc Hc0 Ho.
    unfold Scheduler.send_batch_for_period, mbind, M_bind, find_all.
    cbn [emit patients_col]. rewrite Hc, Hc0.
    match goal with
      |- context [for_each (l1 ++ p :: l2) _ ?c ?wa] => set (wa' := wa) end.
    match goal with
      |- context [for_each (l1 ++ l2) _ ?c ?wb] => set (wb' := wb) end.
    assert (Hab : outbox wa' = outbox wb') by (unfold wa', wb'; simpl; congruence).
    rewrite !for_each_app. unfold mbind, M_bind.
    destruct (batch_loop l1 (0, 0) wa')
      as (c1 & wa1 & ? & ? & Hra & _).
    destruct (batch_loop l1 (0, 0) wb')
      as (c1' & wb1 & ? & ? & Hrb & _).
    destruct (batch_loop_outbox l1 (0, 0) wa' wb' Hab) as [Hfst Hout].
    rewrite Hra, Hrb in Hfst, Hout |- *. simpl in Hfst, Hout.
    injection Hfst as <-.
    cbn [for_each]. unfold mbind, M_bind.
    destruct (batch_step_skipped p c1 wa1 Hel) as (wa2 & ? & -> & _ & Ho2 & _).
    destruct (batch_loop l2 c1 wa2) as (c2 & wa3 & ? & ? & Hra3 & _).
    destruct (batch_loop l2 c1 wb1) as (c2' & wb3 & ? & ? & Hrb3 & _).
    destruct (batch_loop_outbox l2 c1 wa2 wb1) as [Hfst3 Hout3]; [congruence|].
    rewrite Hra3, Hrb3 in Hfst3, Hout3 |- *. simpl in Hfst3, Hout3.
    injection Hfst3 as <-. simpl. done.
Qed.

End Dispatch.

(** ** Instances on sample records *)

Section Instances.

Local Open Scope list_scope.

Lemma sample_col_ids : NoDup (map _id (patients_col (empty_world sample_col))).
Proof.
  apply (bool_decide_unpack _). vm_compute. exact I.
Qed.

Lemma reminder_job_idempotent_witness :
  attempts_for 1
    (new_attempts (empty_world sample_col)
       (run_many (Scheduler.send_batch_for_period sample_net "2024-01-01" "morning")
          3 (empty_world sample_col)))
  = []
  ∧ attempts_for 1
      (new_attempts (empty_world sample_col)
         (run_many (App.run_reminder_job sample_net "2024-01-01" "morning")
            3 (empty_world sample_col)))
    = [].
Proof.
  apply (proj1 (reminder_job_idempotent sample_net "morning" "2024-01-01") 3
           (empty_world sample_col)
           (sample_patient 1 [("time_to_take", VStr "morning");
                              ("email", VStr "asha@example.org");
                              ("last_sent_morning", VStr "2024-01-01")])).
  - exact sample_col_ids.
  - left. reflexivity.
  - vm_compute. reflexivity.
Defined.

Lemma batch_failure_witness :
  ∃ sent failed w',
    Scheduler.send_batch_for_period sample_net "2024-01-01" "morning"
      (empty_world sample_col)
    = (Ok (sent, failed), w')
    ∧ map att_for (new_attempts (empty_world sample_col) w')
      = map _id (List.filter (eligible "morning" "2024-01-01") sample_col)
    ∧ last (log w') = Some (LogCompleted "morning" sent failed).
Proof.
  destruct (batch_failure_is_contained sample_net "morning" "2024-01-01"
              (empty_world sample_col) sample_col_ids)
    as (sent & failed & w' & H1 & H2 & _ & _ & _ & H6 & _).
  exists sent, failed, w'. auto.
Defined.

Lemma sent_count_witness :
  ∃ sent failed w',
    Scheduler.send_batch_for_period sample_net "2024-01-01" "morning"
      (empty_world sample_col)
    = (Ok (sent, failed), w')
    ∧ sent = length (new_writes (empty_world sample_col) w').
Proof.
  destruct (sent_count_is_marker_writes sample_net "morning" "2024-01-01"
              (empty_world sample_col) sample_col_ids)
    as [(sent & failed & w' & H1 & H2 & _) _].
  exists sent, failed, w'. auto.
Defined.

Lemma invalid_email_witness :
  ∃ c w',
    Scheduler.send_batch_for_period sample_net "2024-01-01" "morning"
      (empty_world sample_col)
    = (Ok c, w')
    ∧ attempts_for 3 (new_attempts (empty_world sample_col) w') = []
    ∧ writes_for 3 (new_writes (empty_world sample_col) w') = [].
Proof.
  destruct (invalid_email_is_skipped sample_net "morning" "2024-01-01"
              (sample_patient 3 [("time_to_take", VStr "after breakfast");
                                 ("email", VStr "not-an-email")]))
    as (_ & Hrun & _).
  - right. right. exists (VStr "not-an-email"). split; vm_compute; reflexivity.
  - destruct (Hrun (empty_world sample_col) sample_col_ids)
      as (c & w' & H1 & H2 & H3 & _).
    + right. right. left. reflexivity.
    + exists c, w'. auto.
Defined.

(** On scheduler.py the timing text is read from [time_to_take], then from
    [timing], then from [timings]. *)
Lemma scheduler_reads_legacy_timing p s :
  truthy (get p "time_to_take") = false →
  (get p "timing" = VStr s ∧ s ≠ ""
   ∨ truthy (get p "timing") = false ∧ get p "timings" = VStr s) →
  Scheduler.timing_field_lc p = PyStr.lower s.
Proof.
  intros H1 H2. unfold Scheduler.timing_field_lc, py_or. rewrite H1.
  destruct H2 as [[-> Hs] | [-> ->]].
  - assert (Ht : truthy (VStr s) = true) by exact (truthy_nonempty s Hs).
    rewrite !Ht. reflexivity.
  - destruct (truthy (VStr s)) eqn:E; rewrite ?E; [done|].
    destruct s; [done|discriminate].
Qed.

(** C6, on app.py: [run_reminder_job] reads [time_to_take] only.  A record
    that carries its timing under the legacy name [timing] is reminded by
    [send_batch_for_period] and passed over, without a word, by
    [run_reminder_job]. *)
Lemma app_skips_legacy_timing_record :
  Scheduler.timing_field_lc legacy_patient = "morning"
  ∧ map att_for
      (outbox (snd (Scheduler.send_batch_for_period sample_net "2024-01-01"
                      "morning" (empty_world [legacy_patient]))))
    = [7]
  ∧ App.run_reminder_job sample_net "2024-01-01" "morning"
      (empty_world [legacy_patient])
    = (Ok 0, {| patients_col := [legacy_patient]; outbox := []; writes := [];
                log := [PrintCompleted "Morning" 0] |}).
Proof. split; [|split]; vm_compute; reflexivity. Qed.

End Instances.

(** ** More on strings: how [lower], [strip] and [capitalize] combine *)

Section StringAlgebra.

Import PyStr.
Local Open Scope list_scope.

Lemma chars_append s t : chars (s ++ t)%string = chars s ++ chars t.
Proof.
  unfold chars. induction s as [|c s IH]; simpl; [done|]. by rewrite IH.
Qed.

Lemma lower_char_idem c : lower_char (lower_char c) = lower_char c.
Proof. destruct c as [[] [] [] [] [] [] [] []]; reflexivity. Qed.


Lemma is_space_lower_char c : is_space (lower_char c) = is_space c.
Proof. destruct c as [[] [] [] [] [] [] [] []]; reflexivity. Qed.

Lemma lower_idem s : lower (lower s) = lower s.
Proof.
  unfold lower. rewrite chars_text, map_map. f_equal.
  apply map_ext. intros c. apply lower_char_idem.
Qed.


Lemma lstrip_lower l :
  lstrip_chars (map lower_char l) = map lower_char (lstrip_chars l).
Proof.
  induction l as [|c l IH]; simpl; [done|].
  rewrite is_space_lower_char. destruct (is_space c); [done|reflexivity].
Qed.

Lemma lstrip_idem l : lstrip_chars (lstrip_chars l) = lstrip_chars l.
Proof.
  induction l as [|c l IH]; simpl; [done|].
  destruct (is_space c) eqn:E; [done|]. simpl. by rewrite E.
Qed.

Lemma lstrip_padding ws l :
  forallb is_space ws = true → lstrip_chars (ws ++ l) = lstrip_chars l.
Proof.
  induction ws as [|c ws IH]; simpl; [done|].
  intros [-> H]%andb_true_iff. auto.
Qed.

Lemma lstrip_snoc l c :
  is_space c = false → lstrip_chars (l ++ [c]) = lstrip_chars l ++ [c].
Proof.
  intros Hc. induction l as [|x l IH]; simpl; [by rewrite Hc|].
  destruct (is_space x); [done|reflexivity].
Qed.

(** At the end of a text that starts with a character that is no white
    space, stripping keeps that character. *)
Lemma rstrip_cons c r :
  is_space c = false →
  rev (lstrip_chars (rev (c :: r))) = c :: rev (lstrip_chars (rev r)).
Proof.
  intros Hc. simpl. rewrite (lstrip_snoc _ _ Hc), rev_app_distr. reflexivity.
Qed.

Lemma lstrip_head l :
  lstrip_chars l = [] ∨ ∃ c r, lstrip_chars l = c :: r ∧ is_space c = false.
Proof.
  induction l as [|c l IH]; simpl; [by left|].
  destruct (is_space c) eqn:E; [done|]. right. eauto.
Qed.

Lemma chars_strip s :
  chars (strip s) = rev (lstrip_chars (rev (lstrip_chars (chars s)))).
Proof. unfold strip. apply chars_text. Qed.

Lemma strip_idem s : strip (strip s) = strip s.
Proof.
  apply chars_inj. rewrite (chars_strip (strip s)), (chars_strip s).
  destruct (lstrip_head (chars s)) as [-> | (c & r & -> & Hc)]; [done|].
  rewrite (rstrip_cons c r Hc).
  assert (lstrip_chars (c :: rev (lstrip_chars (rev r)))
          = c :: rev (lstrip_chars (rev r))) as -> by (simpl; by rewrite Hc).
  rewrite (rstrip_cons c _ Hc). by rewrite rev_involutive, lstrip_idem.
Qed.

Lemma strip_lower s : strip (lower s) = lower (strip s).
Proof.
  apply chars_inj. rewrite chars_strip, !chars_lower, chars_strip.
  by rewrite lstrip_lower, <- map_rev, lstrip_lower, map_rev.
Qed.

Lemma strip_padding ws1 s ws2 :
  forallb is_space (chars ws1) = true → forallb is_space (chars ws2) = true →
  strip (ws1 ++ s ++ ws2)%string = strip s.
Proof.
  intros H1 H2. apply chars_inj. rewrite !chars_strip, !chars_append.
  rewrite (lstrip_padding _ _ H1).
  destruct (lstrip_head (chars s)) as [E | (c & r & E & Hc)].
  - assert (Hall : ∀ l, lstrip_chars l = [] → forallb is_space l = true).
    { induction l as [|x l IH]; simpl; [done|].
      destruct (is_space x); [auto|done]. }
    rewrite E, lstrip_padding by auto.
    rewrite (lstrip_all_space (chars ws2)) by done. reflexivity.
  - assert (Hs : lstrip_chars (chars s ++ chars ws2) = c :: r ++ chars ws2).
    { revert E. induction (chars s) as [|x l IH]; simpl; [done|].
      destruct (is_space x); [auto|]. by intros [= -> ->]. }
    rewrite Hs, E.
    change (c :: r ++ chars ws2) with ((c :: r) ++ chars ws2).
    rewrite rev_app_distr, lstrip_padding; [done|].
    apply forallb_forall. intros x Hx%in_rev.
    by apply (proj1 (forallb_forall _ _) H2).
Qed.


End StringAlgebra.

(** ** More on the disease matcher *)

Section RecommenderMore.

Import PyStr.
Local Open Scope list_scope.

Variable sk : Sklearn.

(** X1.  [recommend] looks at the query through [lower] and [strip] only:
    a query that differs from another in the case of its letters and in
    white space around it gets the same answer. *)
Theorem recommend_ignores_case_and_padding df Q Q' ws1 ws2 :
  lower Q' = lower Q →
  forallb is_space (chars ws1) = true → forallb is_space (chars ws2) = true →
  Recommender.recommend sk df (ws1 ++ Q' ++ ws2)%string
  = Recommender.recommend sk df Q.
Proof.
  intros HQ H1 H2. unfold Recommender.recommend.
  assert (strip (lower (ws1 ++ Q' ++ ws2)%string) = strip (lower Q)) as ->; [|done].
  rewrite strip_lower, strip_padding, <- strip_lower by done. by rewrite HQ.
Qed.

Lemma lookup_In {A : Type} (l : list A) i x : l !! i = Some x → In x l.
Proof. intros H. apply list_elem_of_In, list_elem_of_lookup. eauto. Qed.

(** X2.  [recommend] never makes up a treatment.  What it returns is the
    formatted form of a row of the catalog, or the fallback: labelled "No
    disease entered" exactly for a query that is blank once normalised, and
    labelled with the normalised query only when no row contains it, the
    best cosine is below 0.1 and no disease passes the cutoff 0.3. *)
Theorem recommend_answers_from_catalog_or_fallback df Q advice :
  Recommender.recommend sk df Q = Ok advice →
  (∃ row, In row df ∧ advice = Recommender._format_output row
          ∧ strip (lower Q) ≠ "")
  ∨ (strip (lower Q) = "" ∧ advice = no_disease_entered)
  ∨ (strip (lower Q) ≠ ""
     ∧ advice = Recommender._fallback (strip (lower Q))
     ∧ (∀ row, In row df → contains (strip (lower Q)) (disease row) = false)
     ∧ (∀ idx score,
          Tfidf.argmax (Tfidf.cosine_similarity sk (map disease df)
                          (strip (lower Q))) = Some idx →
          Tfidf.cosine_similarity sk (map disease df) (strip (lower Q)) !! idx
          = Some score →
          PrimFloat.leb 0.1 score = false)
     ∧ (∀ x, In x (map disease df) →
             close_enough 0.3 (strip (lower Q)) x = false)).
Proof.
  unfold Recommender.recommend. set (query := strip (lower Q)).
  destruct (truthy query) eqn:Hq; simpl.
  2: { intros [= <-]. right. left. split; [|done].
       unfold truthy in Hq. apply negb_false_iff in Hq.
       by apply String.eqb_eq in Hq. }
  assert (Hne : query ≠ "").
  { intros E. rewrite E in Hq. discriminate. }
  destruct (Recommender.partial_match df query) as [row|] eqn:Hpm.
  { intros [= <-]. left. exists row. split; [|done].
    apply find_some in Hpm. tauto. }
  unfold Recommender.similar_or_close.
  destruct (Tfidf.argmax _) as [idx|] eqn:Hidx; [|done].
  destruct (Tfidf.cosine_similarity sk (map disease df) query !! idx)
    as [score|] eqn:Hscore; [|done].
  destruct (df !! idx) as [best|] eqn:Hbest; [|done].
  destruct (PrimFloat.leb 0.1 score) eqn:Hleb.
  { intros [= <-]. left. exists best. split; [by eapply lookup_In|done]. }
  destruct (Difflib.get_close_matches query (map disease df) 0.3)
    as [|m rest] eqn:Hget.
  - intros [= <-]. right. right. split; [done|]. split; [done|]. split.
    { intros row Hrow. unfold Recommender.partial_match in Hpm.
      by apply (find_none _ _ Hpm). }
    split.
    { intros idx' score' [= <-] Hs'. rewrite Hscore in Hs'. by injection Hs' as <-. }
    apply (get_close_matches_none _ _ _ Hget).
  - apply get_close_matches_sound in Hget as (_ & Hm & _).
    destruct (rows_of_disease df m Hm) as (row & rest' & -> & Hrow & _).
    intros [= <-]. left. exists row. done.
Qed.

End RecommenderMore.

Section RecommenderMoreInstances.

Import PyStr.
Local Open Scope list_scope.

Lemma recommend_ignores_case_witness :
  Recommender.recommend sample_sklearn (Recommender.clean <$> sample_sheet)
    ("  " ++ "DiaBetes" ++ " ")%string
  = Recommender.recommend sample_sklearn (Recommender.clean <$> sample_sheet)
      "diabetes".
Proof.
  apply (recommend_ignores_case_and_padding sample_sklearn
           (Recommender.clean <$> sample_sheet) "diabetes" "DiaBetes" "  " " ");
    vm_compute; reflexivity.
Defined.

Lemma recommend_answers_witness :
  (∃ row, In row (Recommender.clean <$> sample_sheet)
          ∧ {| out_disease := "Diabetes"; out_medicine := "Metformin";
               out_dosage := "500mg"; out_time_to_take := "morning, night" |}
            = Recommender._format_output row
          ∧ strip (lower "diabetis") ≠ "")
  ∨ (strip (lower "diabetis") = ""
     ∧ {| out_disease := "Diabetes"; out_medicine := "Metformin";
          out_dosage := "500mg"; out_time_to_take := "morning, night" |}
       = no_disease_entered)
  ∨ (strip (lower "diabetis") ≠ ""
     ∧ {| out_disease := "Diabetes"; out_medicine := "Metformin";
          out_dosage := "500mg"; out_time_to_take := "morning, night" |}
       = Recommender._fallback (strip (lower "diabetis"))
     ∧ (∀ row, In row (Recommender.clean <$> sample_sheet) →
               contains (strip (lower "diabetis")) (disease row) = false)
     ∧ (∀ idx score,
          Tfidf.argmax (Tfidf.cosine_similarity sample_sklearn
                          (map disease (Recommender.clean <$> sample_sheet))
                          (strip (lower "diabetis"))) = Some idx →
          Tfidf.cosine_similarity sample_sklearn
            (map disease (Recommender.clean <$> sample_sheet))
            (strip (lower "diabetis")) !! idx
          = Some score →
          PrimFloat.leb 0.1 score = false)
     ∧ (∀ x, In x (map disease (Recommender.clean <$> sample_sheet)) →
             close_enough 0.3 (strip (lower "diabetis")) x = false)).
Proof.
  apply (recommend_answers_from_catalog_or_fallback sample_sklearn
           (Recommender.clean <$> sample_sheet) "diabetis").
  vm_compute. reflexivity.
Defined.

End RecommenderMoreInstances.

(** ** The catalog the recommender holds *)

Section CatalogFacts.

Import PyStr.
Local Open Scope list_scope.

Variable sk : Sklearn.





End CatalogFacts.

Section CatalogInstances.

Import PyStr.
Local Open Scope list_scope.



End CatalogInstances.

(** ** More on the classification of timing texts *)

Section ClassificationMore.

Local Open Scope list_scope.

Lemma search_monotone pattern s s' :
  PyStr.contains s s' = true → Re.search pattern s = true → Re.search pattern s' = true.
Proof.
  intros Hc. rewrite !search_unfold, !existsb_exists.
  intros (lit & Hin & Hlit). exists lit. split; [done|].
  by apply contains_trans with s.
Qed.

Lemma contains_truthy s s' :
  PyStr.contains s s' = true → PyStr.truthy s = true → PyStr.truthy s' = true.
Proof.
  intros Hc Hs. destruct s' as [|c s']; [|done].
  apply contains_in_empty in Hc. by rewrite Hc in Hs.
Qed.

(** X5.  Words added to a timing text never take a period away: a text
    that PyStr.contains a text matching a period matches that period too, in the
    classifier of scheduler.py (whatever the period) and in that of app.py. *)
Theorem longer_timing_text_keeps_period t t' period w w' :
  PyStr.contains t t' = true →
  (Scheduler.patient_matches_period t period = true →
   Scheduler.patient_matches_period t' period = true)
  ∧ (App.matches_period (VStr t) period w = (Ok true, w) →
     App.matches_period (VStr t') period w' = (Ok true, w')).
Proof.
  intros Hc. pose proof (contains_lower _ _ Hc) as Hl. split.
  - unfold Scheduler.patient_matches_period.
    destruct (PyStr.truthy t) eqn:Ht; simpl; [|done].
    rewrite (contains_truthy _ _ Hc Ht). simpl. by apply search_monotone.
  - unfold App.matches_period, raise, mret, M_ret. simpl.
    destruct (PyStr.truthy t) eqn:Ht; simpl; [|done].
    rewrite (contains_truthy _ _ Hc Ht). simpl.
    destruct (App.patterns !! period) as [pattern|]; [|done].
    intros [= Hs]. by rewrite (search_monotone _ _ _ Hl Hs).
Qed.

Lemma longer_timing_text_witness :
  (Scheduler.patient_matches_period "8am" "morning" = true →
   Scheduler.patient_matches_period "one tablet at 8am with water" "morning"
   = true)
  ∧ (App.matches_period (VStr "8am") "morning" (empty_world [])
     = (Ok true, empty_world []) →
     App.matches_period (VStr "one tablet at 8am with water") "morning"
       (empty_world [])
     = (Ok true, empty_world [])).
Proof.
  apply (longer_timing_text_keeps_period "8am" "one tablet at 8am with water"
           "morning" (empty_world []) (empty_world [])).
  vm_compute. reflexivity.
Defined.

Lemma app_patterns_unknown period :
  period ≠ "morning" → period ≠ "afternoon" → period ≠ "night" →
  App.patterns !! period = None.
Proof.
  intros H1 H2 H3. unfold App.patterns.
  rewrite !lookup_insert_ne by done. by apply lookup_singleton_ne.
Qed.

Lemma app_unknown_period_loop net period today_str l : ∀ n w,
  App.patterns !! period = None →
  for_each l (App.job_step net period today_str) n w
  = (match unknown_period_outcome period l with
     | Ok _ => Ok n
     | Raise e => Raise e
     end, w).
Proof.
  induction l as [|p l IH]; intros n w Hp; [done|].
  cbn [for_each]. unfold mbind, M_bind, App.job_step at 1, mbind, M_bind.
  unfold unknown_period_outcome. simpl.
  unfold App.matches_period. rewrite Hp.
  destruct (truthy (get_or p "time_to_take" (VStr ""))) eqn:Ht; simpl.
  - destruct (get_or p "time_to_take" (VStr "")); try done.
  - rewrite (IH n w Hp). reflexivity.
Qed.

(** X6.  Unlike [send_batch_for_period], [run_reminder_job] sends nothing
    for a period that is not morning, afternoon or night: it leaves outbox,
    markers and collection as they are, and it returns the count 0 only if
    no record has a timing; otherwise the first record with one makes it
    raise, [KeyError] for a text and [AttributeError] for another value. *)
Theorem app_unknown_period_sends_nothing net period today_str w :
  period ≠ "morning" → period ≠ "afternoon" → period ≠ "night" →
  fst (App.run_reminder_job net today_str period w)
  = unknown_period_outcome period (patients_col w)
  ∧ outbox (snd (App.run_reminder_job net today_str period w)) = outbox w
  ∧ writes (snd (App.run_reminder_job net today_str period w)) = writes w
  ∧ patients_col (snd (App.run_reminder_job net today_str period w))
    = patients_col w.
Proof.
  intros H1 H2 H3. pose proof (app_patterns_unknown period H1 H2 H3) as Hp.
  unfold App.run_reminder_job, mbind, M_bind, find_all.
  rewrite (app_unknown_period_loop net period today_str _ 0 w Hp).
  destruct (unknown_period_outcome period (patients_col w)) as [n|e] eqn:E.
  - simpl. split; [|done].
    unfold unknown_period_outcome in E.
    destruct (List.find _ _) as [p|]; [|by injection E as <-].
    by destruct (get_or p "time_to_take" (VStr "")).
  - done.
Qed.

Lemma app_unknown_period_witness :
  fst (App.run_reminder_job sample_net "2024-01-01" "weekly"
         (empty_world sample_col))
  = unknown_period_outcome "weekly" (patients_col (empty_world sample_col))
  ∧ outbox (snd (App.run_reminder_job sample_net "2024-01-01" "weekly"
                   (empty_world sample_col)))
    = outbox (empty_world sample_col)
  ∧ writes (snd (App.run_reminder_job sample_net "2024-01-01" "weekly"
                   (empty_world sample_col)))
    = writes (empty_world sample_col)
  ∧ patients_col (snd (App.run_reminder_job sample_net "2024-01-01" "weekly"
                         (empty_world sample_col)))
    = patients_col (empty_world sample_col).
Proof.
  apply (app_unknown_period_sends_nothing sample_net "weekly" "2024-01-01"
           (empty_world sample_col)); discriminate.
Defined.

End ClassificationMore.

(** ** More on the dispatchers *)

Section DispatchMore.

Local Open Scope list_scope.

Variable net : Smtp.
Variables period today_str : string.

Lemma update_first_map i f v col :
  NoDup (map _id col) →
  update_first i f v col
  = map (λ q, if Nat.eqb (_id q) i then set_field f v q else q) col.
Proof.
  induction col as [|q col IH]; simpl; [done|].
  intros [Hq Hnd]%NoDup_cons. destruct (Nat.eqb (_id q) i) eqn:E.
  - f_equal. apply Nat.eqb_eq in E. subst i.
    rewrite <- (map_id col) at 1. apply map_ext_in. intros x Hx.
    destruct (Nat.eqb (_id x) (_id q)) eqn:Ex; [|done].
    apply Nat.eqb_eq in Ex. exfalso. apply Hq. rewrite <- Ex.
    apply list_elem_of_In, in_map_iff. eauto.
  - f_equal. auto.
Qed.

(** The collection after a run, record by record. *)
Lemma apply_writes_map atts col :
  NoDup (map _id col) →
  apply_writes period today_str atts col
  = map (λ q, if sent_ok_for atts q
              then set_field (marker period) (VStr today_str) q else q) col.
Proof.
  unfold apply_writes, sent_ok_for. revert col.
  induction atts as [|a atts IH]; intros col Hnd; simpl.
  - by rewrite map_id.
  - destruct (att_ok a) eqn:Hok; simpl; [|by apply IH].
    rewrite IH by (by rewrite update_first_ids).
    rewrite update_first_map, map_map by done.
    apply map_ext. intros q. simpl.
    destruct (Nat.eqb (_id q) (att_for a)) eqn:E.
    + apply Nat.eqb_eq in E. rewrite E, Nat.eqb_refl. simpl.
      destruct (existsb _ atts); [apply set_field_twice|done].
    + rewrite Nat.eqb_sym, E. reflexivity.
Qed.

Lemma eligible_after_send q :
  eligible period today_str
    (set_field (marker period) (VStr today_str) q) = false.
Proof.
  unfold eligible. rewrite marked_set_field. simpl.
  by rewrite andb_false_r.
Qed.

(** The records still due after a run are those whose send failed. *)
Lemma still_due_are_the_failed col : ∀ atts,
  NoDup (map _id col) →
  map att_for atts = map _id (List.filter (eligible period today_str) col) →
  map _id
    (List.filter (λ q, eligible period today_str q && negb (sent_ok_for atts q))
       col)
  = map att_for (List.filter (λ a, negb (att_ok a)) atts).
Proof.
  induction col as [|q col IH]; intros atts Hnd Hids.
  - destruct atts; [done|discriminate].
  - apply NoDup_cons in Hnd as [Hq Hnd].
    assert (Hother : ∀ (a : Attempt) tl x, att_for a = _id q → In x col →
              sent_ok_for (a :: tl) x = sent_ok_for tl x).
    { intros a tl x Ha Hx. unfold sent_ok_for. simpl.
      destruct (Nat.eqb (att_for a) (_id x)) eqn:E; [|by rewrite andb_false_r].
      apply Nat.eqb_eq in E. exfalso. apply Hq. rewrite <- Ha, E.
      apply list_elem_of_In, in_map_iff. eauto. }
    cbn [List.filter] in Hids |- *.
    destruct (eligible period today_str q) eqn:Hel.
    + destruct atts as [|a atts]; [discriminate|]. cbn [map] in Hids.
      injection Hids as Ha Hids.
      assert (Hq' : sent_ok_for atts q = false).
      { unfold sent_ok_for. apply not_true_iff_false.
        intros (b & Hb & [_ E%Nat.eqb_eq]%andb_true_iff)%existsb_exists.
        apply Hq. rewrite <- E.
        assert (Hin : In (att_for b) (map att_for atts)) by (by apply in_map).
        rewrite Hids in Hin. apply in_map_iff in Hin as (x & Hx & [Hin _]%filter_In).
        apply list_elem_of_In, in_map_iff. eauto. }
      assert (Hq0 : sent_ok_for (a :: atts) q = att_ok a).
      { unfold sent_ok_for in *. cbn [existsb]. rewrite Ha, Nat.eqb_refl, Hq'.
        by rewrite andb_true_r, orb_false_r. }
      rewrite Hq0.
      rewrite (filter_ext_in
                 (λ x, eligible period today_str x && negb (sent_ok_for (a :: atts) x))
                 (λ x, eligible period today_str x && negb (sent_ok_for atts x)))
        by (intros x Hx; by rewrite (Hother a atts x Ha Hx)).
      cbn [List.filter]. destruct (att_ok a); cbn [andb negb map];
        rewrite IH by done; by rewrite ?Ha.
    + cbn [andb]. by apply IH.
Qed.

Lemma due_after_writes atts col :
  map _id
    (List.filter (eligible period today_str)
       (map (λ q, if sent_ok_for atts q
                  then set_field (marker period) (VStr today_str) q else q)
            col))
  = map _id
      (List.filter
         (λ q, eligible period today_str q && negb (sent_ok_for atts q)) col).
Proof.
  induction col as [|q col IH]; simpl; [done|].
  destruct (sent_ok_for atts q) eqn:Hs.
  - rewrite eligible_after_send, andb_false_r. apply IH.
  - rewrite andb_true_r. destruct (eligible period today_str q); simpl;
      by rewrite IH.
Qed.

(** X7.  A failed send is retried, a successful one is not: after a run of
    [send_batch_for_period] the eligible records are those whose send
    failed in that run, and a second run that day calls the mail server for
    these and for no other. *)
Theorem failed_sends_are_retried w :
  NoDup (map _id (patients_col w)) →
  map _id
    (List.filter (eligible period today_str)
       (patients_col (snd (Scheduler.send_batch_for_period net today_str period w))))
  = map att_for
      (List.filter (λ a, negb (att_ok a))
         (new_attempts w
            (snd (Scheduler.send_batch_for_period net today_str period w))))
  ∧ map att_for
      (new_attempts
         (snd (Scheduler.send_batch_for_period net today_str period w))
         (snd (Scheduler.send_batch_for_period net today_str period
                 (snd (Scheduler.send_batch_for_period net today_str period w)))))
    = map att_for
        (List.filter (λ a, negb (att_ok a))
           (new_attempts w
              (snd (Scheduler.send_batch_for_period net today_str period w)))).
Proof.
  intros Hnd.
  destruct (send_batch_run net period today_str w)
    as (sent & failed & w1 & atts & lines & Hrun & Heff & Hids & _).
  rewrite Hrun. simpl.
  rewrite (effect_new_attempts _ _ _ _ _ Heff).
  assert (Hdue : map _id (List.filter (eligible period today_str) (patients_col w1))
                 = map att_for (List.filter (λ a, negb (att_ok a)) atts)).
  { destruct Heff as (_ & _ & ->). rewrite apply_writes_map by done.
    rewrite <- (still_due_are_the_failed (patients_col w) atts Hnd Hids).
    apply due_after_writes. }
  split; [done|].
  destruct (send_batch_run net period today_str w1)
    as (sent2 & failed2 & w2 & atts2 & lines2 & Hrun2 & Heff2 & Hids2 & _).
  rewrite Hrun2. simpl. rewrite (effect_new_attempts _ _ _ _ _ Heff2).
  by rewrite Hids2.
Qed.

(** *** What a run leaves alone *)

Lemma only_marker_refl q : only_marker_set period today_str q q.
Proof. unfold only_marker_set. auto. Qed.

Lemma only_marker_set_field q q' :
  only_marker_set period today_str q q' →
  only_marker_set period today_str q
    (set_field (marker period) (VStr today_str) q').
Proof.
  intros (Hid & Hk & _). unfold only_marker_set, set_field. simpl.
  split; [done|]. split.
  - intros k Hne. rewrite lookup_insert_ne by done. auto.
  - right. apply lookup_insert_eq.
Qed.

Lemma update_first_frame i col col' :
  Forall2 (only_marker_set period today_str) col col' →
  Forall2 (only_marker_set period today_str) col
    (update_first i (marker period) (VStr today_str) col').
Proof.
  induction 1 as [|q q' col col' Hq Hcol IH]; simpl; [constructor|].
  destruct (Nat.eqb (_id q') i); constructor; auto.
  by apply only_marker_set_field.
Qed.

Lemma apply_writes_frame atts col :
  Forall2 (only_marker_set period today_str) col
    (apply_writes period today_str atts col).
Proof.
  unfold apply_writes.
  assert (H : ∀ oks col', Forall2 (only_marker_set period today_str) col col' →
            Forall2 (only_marker_set period today_str) col
              (fold_left
                 (λ c a, update_first (att_for a) (marker period)
                           (VStr today_str) c) oks col')).
  { induction oks as [|a oks IH]; intros col' Hc; simpl; [done|].
    apply IH. by apply update_first_frame. }
  apply H. clear H. induction col as [|q col IH]; constructor;
    [apply only_marker_refl | exact IH].
Qed.

Lemma marker_inj p p' : marker p = marker p' → p = p'.
Proof. unfold marker. intros H. cbn in H. by injection H. Qed.

Lemma send_batch_frame w :
  Forall2 (only_marker_set period today_str) (patients_col w)
    (patients_col (snd (Scheduler.send_batch_for_period net today_str period w))).
Proof.
  destruct (send_batch_respects_markers net period today_str w)
    as (atts & (_ & _ & ->) & _). apply apply_writes_frame.
Qed.

(** X8.  A run of either dispatcher keeps the collection record for
    record: same records in the same order, every field as it was but the
    marker of the period of the run, which is as it was or holds today's
    date.  The markers of the other periods are among the fields it
    keeps. *)
Theorem run_changes_only_its_marker w :
  Forall2 (only_marker_set period today_str) (patients_col w)
    (patients_col (snd (Scheduler.send_batch_for_period net today_str period w)))
  ∧ Forall2 (only_marker_set period today_str) (patients_col w)
      (patients_col (snd (App.run_reminder_job net today_str period w)))
  ∧ ∀ period', period' ≠ period → marker period' ≠ marker period.
Proof.
  split; [|split].
  - apply send_batch_frame.
  - destruct (run_reminder_job_respects_markers net period today_str w)
      as (atts & (_ & _ & ->) & _). apply apply_writes_frame.
  - intros period' Hne E. by apply marker_inj in E.
Qed.

Lemma eligible_frame q q' period' t :
  only_marker_set period today_str q q' → period' ≠ period →
  eligible period' t q' = eligible period' t q.
Proof.
  intros (_ & Hk & _) Hne.
  assert (Hm : marker period' ≠ marker period)
    by (intros E; by apply marker_inj in E).
  unfold eligible, marked, invalid_email, Scheduler.timing_field_lc, get, get_or.
  rewrite (Hk (marker period') Hm).
  rewrite !(Hk "time_to_take"), !(Hk "timing"), !(Hk "timings"), !(Hk "email");
    (done || (unfold marker; simpl; discriminate)).
Qed.

(** X9.  A reminder sent for one period does not cost the reminder of
    another: after a run of [send_batch_for_period] every record is
    eligible for every other period, on any date, exactly if it was before
    the run.  And a marker counts for its own date only: on another date a
    marked record is eligible as soon as its timing matches and its address
    is usable. *)
Theorem other_periods_and_days_stay_due w :
  (∀ period' t, period' ≠ period →
     map (eligible period' t)
       (patients_col (snd (Scheduler.send_batch_for_period net today_str period w)))
     = map (eligible period' t) (patients_col w))
  ∧ (∀ q t, marked period today_str q = true → t ≠ today_str →
       eligible period t q
       = Scheduler.patient_matches_period (Scheduler.timing_field_lc q) period
         && negb (invalid_email q)).
Proof.
  split.
  - intros period' t Hne.
    pose proof (send_batch_frame w) as Hframe.
    induction Hframe as [|q q' col col' Hq _ IH]; simpl; [done|].
    by rewrite IH, (eligible_frame q q' period' t Hq Hne).
  - intros q t Hk Ht. unfold eligible, marked in *.
    destruct (get q (marker period)) as [| | |d]; try done. simpl in Hk.
    apply String.eqb_eq in Hk as ->. simpl.
    assert (String.eqb today_str t = false) as ->
      by (apply String.eqb_neq; congruence).
    simpl. by rewrite andb_true_r.
Qed.

End DispatchMore.

(** *** The job of app.py, record by record *)

Section AppJob.

Variable net : Smtp.
Variables period today_str pattern : string.
Hypothesis period_known : App.patterns !! period = Some pattern.

Lemma job_step_spec p n w :
  App.job_step net period today_str p n w
  = if app_classifiable p then
      if app_due pattern period today_str p then
        match doc p !! "email" with
        | None => (Raise (KeyError "email"), w)
        | Some to =>
            let m := app_reminder_mail period p to in
            let a := {| att_for := _id p; att_mail := m;
                        att_ok := net (outbox w) m |} in
            if net (outbox w) m
            then (Ok (S n),
                  {| patients_col :=
                       update_first (_id p) (marker period) (VStr today_str)
                         (patients_col w);
                     outbox := outbox w ++ [a];
                     writes := writes w ++ [marker_write period today_str a];
                     log := log w ++ [PrintSent (PyStr.capitalize period) to] |})
            else (Ok n,
                  {| patients_col := patients_col w; outbox := outbox w ++ [a];
                     writes := writes w; log := log w ++ [PrintFailed to] |})
        end
      else (Ok n, w)
    else (Raise AttributeError, w).
Proof.
  unfold App.job_step, app_classifiable, app_due, app_timing, mbind, M_bind,
    App.matches_period.
  fold (marker period). fold (marked period today_str p).
  destruct (get_or p "time_to_take" (VStr "")) as [|b|z|s] eqn:Ht; simpl.
  - done.
  - by destruct b.
  - by destruct (Z.eqb z 0).
  - destruct (PyStr.truthy s) eqn:Hs; simpl; [|done].
    rewrite period_known. unfold mret, M_ret.
    destruct (Re.search pattern (PyStr.lower s)); simpl; [|done].
    destruct (marked period today_str p); simpl; [done|].
    rewrite send_reminder_email_spec.
    destruct (doc p !! "email") as [to|]; [|done].
    cbv zeta. by destruct (net (outbox w) (app_reminder_mail period p to)).
Qed.

(** The loop over records the job gets through. *)
Lemma job_loop_processable l :
  Forall (λ q, app_processable pattern period today_str q = true) l →
  ∀ n w, ∃ atts lines w',
    for_each l (App.job_step net period today_str) n w
    = (Ok (n + length (List.filter att_ok atts)), w')
    ∧ effect period today_str w w' atts
    ∧ log w' = (log w ++ lines)%list
    ∧ Forall (λ line, is_completed line = false) lines
    ∧ Forall2 (app_attempt_of period) atts
        (List.filter (app_due pattern period today_str) l).
Proof.
  induction 1 as [|p l Hp Hl IH]; intros n w.
  - exists [], [], w. simpl. rewrite Nat.add_0_r, app_nil_r.
    split; [done|]. split; [apply effect_refl|]. by repeat split.
  - cbn [for_each List.filter]. unfold mbind, M_bind. rewrite job_step_spec.
    unfold app_processable in Hp. apply andb_true_iff in Hp as [-> Hp].
    destruct (app_due pattern period today_str p) eqn:Hdue.
    + simpl in Hp. apply bool_decide_eq_true in Hp as [to Hto]. rewrite Hto.
      cbv zeta. set (m := app_reminder_mail period p to).
      destruct (net (outbox w) m) eqn:Hok.
      * match goal with |- context [for_each l _ (S n) ?w1] =>
          destruct (IH (S n) w1) as (atts & lines & w' & -> & He & Hlog & Hlines & Hatts)
        end.
        exists ({| att_for := _id p; att_mail := m; att_ok := true |} :: atts),
          (PrintSent (PyStr.capitalize period) to :: lines), w'.
        split; [simpl; do 2 f_equal; lia|].
        split.
        { change (?a :: atts) with ([a] ++ atts)%list.
          eapply effect_trans; [|exact He].
          by unfold effect, apply_writes. }
        split; [rewrite Hlog; simpl; by rewrite <- app_assoc|].
        split; [by constructor|]. constructor; [|done]. by repeat split.
      * match goal with |- context [for_each l _ n ?w1] =>
          destruct (IH n w1) as (atts & lines & w' & -> & He & Hlog & Hlines & Hatts)
        end.
        exists ({| att_for := _id p; att_mail := m; att_ok := false |} :: atts),
          (PrintFailed to :: lines), w'.
        split; [done|].
        split.
        { change (?a :: atts) with ([a] ++ atts)%list.
          eapply effect_trans; [|exact He].
          unfold effect, apply_writes. simpl. by rewrite app_nil_r. }
        split; [rewrite Hlog; simpl; by rewrite <- app_assoc|].
        split; [by constructor|]. constructor; [|done]. by repeat split.
    + apply IH.
Qed.

(** X10.  With a period of its table and records it can read,
    [run_reminder_job] of app.py comes to its end: it calls the mail server
    once for every record whose timing matches and that is not marked
    today, in the order of the collection and with the stored address as it
    is, returns the number of mails the server took, and prints the closing
    line with that number last. *)
Theorem reminder_job_attempts_every_due_record w :
  Forall (λ q, app_processable pattern period today_str q = true)
    (patients_col w) →
  ∃ atts w',
    App.run_reminder_job net today_str period w
    = (Ok (length (List.filter att_ok atts)), w')
    ∧ effect period today_str w w' atts
    ∧ Forall2 (app_attempt_of period) atts
        (List.filter (app_due pattern period today_str) (patients_col w))
    ∧ last (log w')
      = Some (PrintCompleted (PyStr.capitalize period)
                (length (List.filter att_ok atts))).
Proof.
  intros Hcol. unfold App.run_reminder_job, mbind, M_bind, find_all.
  destruct (job_loop_processable _ Hcol 0 w)
    as (atts & lines & w' & -> & He & Hlog & _ & Hatts).
  simpl. eexists atts, _. split; [reflexivity|]. simpl.
  split; [exact He|]. split; [exact Hatts|]. apply last_snoc.
Qed.

(** X11.  The first record the job of app.py cannot get through ends the
    run: a timing that is no string but counts as true raises in
    [matches_period], a due record without the field [email] raises in the
    handler of [send_reminder_email].  The records before it were attempted
    as usual and keep their markers, no record after it is attempted, and
    the closing line is not printed. *)
Theorem unreadable_record_aborts_the_job l1 p l2 w :
  patients_col w = (l1 ++ p :: l2)%list →
  Forall (λ q, app_processable pattern period today_str q = true) l1 →
  app_processable pattern period today_str p = false →
  ∃ atts w',
    App.run_reminder_job net today_str period w = (Raise (app_failure p), w')
    ∧ effect period today_str w w' atts
    ∧ Forall2 (app_attempt_of period) atts
        (List.filter (app_due pattern period today_str) l1)
    ∧ Forall (λ line, is_completed line = false) (new_log w w').
Proof.
  intros Hcol Hl1 Hp. unfold App.run_reminder_job, mbind, M_bind, find_all.
  rewrite Hcol, for_each_app. unfold mbind, M_bind.
  destruct (job_loop_processable _ Hl1 0 w)
    as (atts & lines & w' & -> & He & Hlog & Hlines & Hatts).
  cbn [for_each]. unfold mbind, M_bind. rewrite job_step_spec.
  assert (Hstep :
    (if app_classifiable p then
       if app_due pattern period today_str p then
         match doc p !! "email" with
         | None => (Raise (KeyError "email"), w')
         | Some to =>
             let m := app_reminder_mail period p to in
             let a := {| att_for := _id p; att_mail := m;
                         att_ok := net (outbox w') m |} in
             if net (outbox w') m
             then (Ok (S (0 + length (List.filter att_ok atts))),
                   {| patients_col :=
                        update_first (_id p) (marker period) (VStr today_str)
                          (patients_col w');
                      outbox := outbox w' ++ [a];
                      writes := writes w' ++ [marker_write period today_str a];
                      log := log w' ++ [PrintSent (PyStr.capitalize period) to] |})
             else (Ok (0 + length (List.filter att_ok atts)),
                   {| patients_col := patients_col w'; outbox := outbox w' ++ [a];
                      writes := writes w'; log := log w' ++ [PrintFailed to] |})
         end
       else (Ok (0 + length (List.filter att_ok atts)), w')
     else (Raise AttributeError, w')) = (Raise (app_failure p), w')).
  { unfold app_processable in Hp. unfold app_failure.
    destruct (app_classifiable p); [|done]. simpl in Hp.
    destruct (app_due pattern period today_str p); [|done]. simpl in Hp.
    destruct (doc p !! "email") as [to|] eqn:Hto; [|done].
    exfalso. apply bool_decide_eq_false in Hp. apply Hp. by exists to. }
  rewrite Hstep. exists atts, w'. split; [done|]. split; [done|].
  split; [done|]. unfold new_log. by rewrite Hlog, drop_app_length.
Qed.

End AppJob.

Section DispatchMoreInstances.

Lemma failed_sends_witness :
  map _id
    (List.filter (eligible "morning" "2024-01-01")
       (patients_col
          (snd (Scheduler.send_batch_for_period sample_net "2024-01-01"
                  "morning" (empty_world sample_col)))))
  = map att_for
      (List.filter (λ a, negb (att_ok a))
         (new_attempts (empty_world sample_col)
            (snd (Scheduler.send_batch_for_period sample_net "2024-01-01"
                    "morning" (empty_world sample_col)))))
  ∧ map att_for
      (new_attempts
         (snd (Scheduler.send_batch_for_period sample_net "2024-01-01"
                 "morning" (empty_world sample_col)))
         (snd (Scheduler.send_batch_for_period sample_net "2024-01-01"
                 "morning"
                 (snd (Scheduler.send_batch_for_period sample_net "2024-01-01"
                         "morning" (empty_world sample_col))))))
    = map att_for
        (List.filter (λ a, negb (att_ok a))
           (new_attempts (empty_world sample_col)
              (snd (Scheduler.send_batch_for_period sample_net "2024-01-01"
                      "morning" (empty_world sample_col))))).
Proof.
  apply (failed_sends_are_retried sample_net "morning" "2024-01-01"
           (empty_world sample_col) sample_col_ids).
Defined.

Lemma reminder_job_witness :
  ∃ atts w',
    App.run_reminder_job sample_net "2024-01-01" "morning"
      (empty_world sample_col)
    = (Ok (length (List.filter att_ok atts)), w')
    ∧ effect "morning" "2024-01-01" (empty_world sample_col) w' atts
    ∧ Forall2 (app_attempt_of "morning") atts
        (List.filter (app_due "morning|am|breakfast" "morning" "2024-01-01")
           (patients_col (empty_world sample_col)))
    ∧ last (log w')
      = Some (PrintCompleted (PyStr.capitalize "morning")
                (length (List.filter att_ok atts))).
Proof.
  apply (reminder_job_attempts_every_due_record sample_net "morning"
           "2024-01-01" "morning|am|breakfast" eq_refl
           (empty_world sample_col)).
  repeat (constructor; [vm_compute; reflexivity|]). constructor.
Defined.

Lemma unreadable_record_witness :
  ∃ atts w',
    App.run_reminder_job sample_net "2024-01-01" "morning"
      (empty_world
         (sample_col
          ++ sample_patient 5 [("time_to_take", VStr "morning")]
             :: [sample_patient 6 [("time_to_take", VStr "morning");
                                   ("email", VStr "lata@example.org")]]))
    = (Raise (app_failure (sample_patient 5 [("time_to_take", VStr "morning")])),
       w')
    ∧ effect "morning" "2024-01-01"
        (empty_world
           (sample_col
            ++ sample_patient 5 [("time_to_take", VStr "morning")]
               :: [sample_patient 6 [("time_to_take", VStr "morning");
                                     ("email", VStr "lata@example.org")]]))
        w' atts
    ∧ Forall2 (app_attempt_of "morning") atts
        (List.filter (app_due "morning|am|breakfast" "morning" "2024-01-01")
           sample_col)
    ∧ Forall (λ line, is_completed line = false)
        (new_log
           (empty_world
              (sample_col
               ++ sample_patient 5 [("time_to_take", VStr "morning")]
                  :: [sample_patient 6 [("time_to_take", VStr "morning");
                                        ("email", VStr "lata@example.org")]]))
           w').
Proof.
  apply (unreadable_record_aborts_the_job sample_net "morning" "2024-01-01"
           "morning|am|breakfast" eq_refl sample_col
           (sample_patient 5 [("time_to_take", VStr "morning")])
           [sample_patient 6 [("time_to_take", VStr "morning");
                              ("email", VStr "lata@example.org")]]).
  - reflexivity.
  - repeat (constructor; [vm_compute; reflexivity|]). constructor.
  - vm_compute. reflexivity.
Defined.

End DispatchMoreInstances.

(** *** The two dispatchers on one collection *)

Section SharedMarkers.

Variables period today_str : string.

Local Open Scope list_scope.

Lemma sent_then_skipped {A B : Type} (job1 : M A) (job2 : M B) w a :
  respects_markers period today_str job1 →
  respects_markers period today_str job2 →
  NoDup (map _id (patients_col w)) →
  In a (new_attempts w (snd (job1 w))) → att_ok a = true →
  attempts_for (att_for a)
    (new_attempts (snd (job1 w)) (snd (job2 (snd (job1 w))))) = [].
Proof.
  intros H1 H2 Hnd Ha Hok.
  destruct (H1 w) as (atts1 & Heff1 & Hsub1).
  assert (Hall : sublist (map att_for atts1) (map _id (patients_col w))).
  { etrans; [exact Hsub1|]. apply filter_sublist_all. }
  destruct (effect_accounts period today_str _ _ _ Hnd Heff1 Hall)
    as (Hnew & _ & _ & _ & Hwritten & _).
  assert (Hq : ∃ q, In q (patients_col w) ∧ _id q = att_for a).
  { rewrite Hnew in Ha.
    assert (Hin : att_for a ∈ map att_for atts1)
      by (apply list_elem_of_In, in_map_iff; eauto).
    eapply elem_of_sublist in Hin; [|exact Hall].
    apply list_elem_of_In, in_map_iff in Hin as (q & Hid & Hq). eauto. }
  destruct Hq as (q & Hq & Hid).
  assert (Hin1 : In (set_field (marker period) (VStr today_str) q)
                   (patients_col (snd (job1 w)))).
  { apply Hwritten; [done|]. exists a. auto. }
  assert (Hnd1 : NoDup (map _id (patients_col (snd (job1 w))))).
  { destruct Heff1 as (_ & _ & ->). by rewrite apply_writes_ids. }
  destruct (H2 (snd (job1 w))) as (atts2 & Heff2 & Hsub2).
  rewrite (effect_new_attempts _ _ _ _ _ Heff2). apply attempts_for_none.
  rewrite <- Hid.
  exact (marked_not_attempted period today_str _ atts2 _ Hnd1 Hin1
           (marked_set_field period today_str q) Hsub2).
Qed.

(** X17.  The dispatchers of app.py and of scheduler.py keep one book: a
    record one of them has sent a reminder to for a period gets none from
    the other for that period on that day, whatever the mail servers do. *)
Theorem reminder_of_one_dispatcher_counts_for_the_other net1 net2 w a :
  NoDup (map _id (patients_col w)) →
  att_ok a = true →
  (In a (new_attempts w (snd (App.run_reminder_job net1 today_str period w))) →
   attempts_for (att_for a)
     (new_attempts (snd (App.run_reminder_job net1 today_str period w))
        (snd (Scheduler.send_batch_for_period net2 today_str period
                (snd (App.run_reminder_job net1 today_str period w)))))
   = [])
  ∧ (In a (new_attempts w
             (snd (Scheduler.send_batch_for_period net1 today_str period w))) →
     attempts_for (att_for a)
       (new_attempts (snd (Scheduler.send_batch_for_period net1 today_str period w))
          (snd (App.run_reminder_job net2 today_str period
                  (snd (Scheduler.send_batch_for_period net1 today_str period w)))))
     = []).
Proof.
  intros Hnd Hok. split; intros Ha.
  - apply (sent_then_skipped (App.run_reminder_job net1 today_str period)
             (Scheduler.send_batch_for_period net2 today_str period));
      auto using run_reminder_job_respects_markers, send_batch_respects_markers.
  - apply (sent_then_skipped (Scheduler.send_batch_for_period net1 today_str period)
             (App.run_reminder_job net2 today_str period));
      auto using run_reminder_job_respects_markers, send_batch_respects_markers.
Qed.

End SharedMarkers.

Section SharedMarkersInstances.

Lemma shared_markers_witness :
  In {| att_for := 2;
        att_mail := app_reminder_mail "morning"
                      (sample_patient 2 [("time_to_take", VStr "Morning, Night");
                                         ("email", VStr "ravi@example.org")])
                      (VStr "ravi@example.org");
        att_ok := true |}
     (new_attempts (empty_world sample_col)
        (snd (App.run_reminder_job sample_net "2024-01-01" "morning"
                (empty_world sample_col))))
  ∧ attempts_for 2
      (new_attempts
         (snd (App.run_reminder_job sample_net "2024-01-01" "morning"
                 (empty_world sample_col)))
         (snd (Scheduler.send_batch_for_period sample_net "2024-01-01" "morning"
                 (snd (App.run_reminder_job sample_net "2024-01-01" "morning"
                         (empty_world sample_col))))))
    = [].
Proof.
  set (a := {| att_for := 2; att_mail := _; att_ok := true |}).
  assert (Hin : In a
                  (new_attempts (empty_world sample_col)
                     (snd (App.run_reminder_job sample_net "2024-01-01" "morning"
                             (empty_world sample_col)))))
    by (vm_compute; left; reflexivity).
  split; [exact Hin|].
  exact (proj1 (reminder_of_one_dispatcher_counts_for_the_other "morning"
                  "2024-01-01" sample_net sample_net (empty_world sample_col) a
                  sample_col_ids eq_refl) Hin).
Defined.

End SharedMarkersInstances.

(** *** A day of runs *)

Section OneADay.

Variable net : Smtp.
Variable today_str : string.

Local Open Scope list_scope.

Lemma run_of_respects r w :
  ∃ atts,
    effect (run_period r) today_str w (run_of net today_str w r) atts
    ∧ sublist (map att_for atts)
        (map _id (List.filter (λ q, negb (marked (run_period r) today_str q))
                    (patients_col w))).
Proof.
  destruct r as [period|period]; simpl.
  - apply run_reminder_job_respects_markers.
  - apply send_batch_respects_markers.
Qed.

Lemma Forall2_In_r {A B : Type} (R : A → B → Prop) l l' y :
  Forall2 R l l' → In y l' → ∃ x, In x l ∧ R x y.
Proof.
  induction 1 as [|x y' l l' Hxy _ IH]; simpl; [done|].
  intros [<- | Hy]; [eauto|]. destruct (IH Hy) as (x' & Hx' & HR). eauto.
Qed.

Lemma NoDup_pair_right {A B : Type} (b : B) (l : list A) :
  NoDup l → NoDup (map (λ i, (i, b)) l).
Proof.
  induction 1 as [|x l Hx _ IH]; simpl; constructor; [|done].
  intros (y & [= <-] & Hy)%list_elem_of_In%in_map_iff.
  by apply Hx, list_elem_of_In.
Qed.

Lemma marked_of_field period q :
  doc q !! marker period = Some (VStr today_str) →
  marked period today_str q = true.
Proof.
  unfold marked, get. intros ->. simpl. apply String.eqb_refl.
Qed.

(** One more run keeps the book of the day: no record is written twice
    under one marker, and every marker written holds today's date. *)
Lemma day_step w0 w ws r :
  NoDup (map _id (patients_col w)) →
  writes w = writes w0 ++ ws →
  NoDup (map write_key ws) →
  (∀ x q, In x ws → In q (patients_col w) → _id q = w_id x →
          doc q !! w_field x = Some (VStr today_str)) →
  ∃ ws',
    NoDup (map _id (patients_col (run_of net today_str w r)))
    ∧ writes (run_of net today_str w r) = writes w0 ++ ws'
    ∧ NoDup (map write_key ws')
    ∧ (∀ x q, In x ws' → In q (patients_col (run_of net today_str w r)) →
              _id q = w_id x → doc q !! w_field x = Some (VStr today_str)).
Proof.
  intros Hnd Hws Hkeys Hheld.
  destruct (run_of_respects r w) as (atts & Heff & Hsub).
  set (period := run_period r) in *. set (w' := run_of net today_str w r) in *.
  assert (Hall : sublist (map att_for atts) (map _id (patients_col w))).
  { etrans; [exact Hsub|]. apply filter_sublist_all. }
  destruct (effect_accounts period today_str _ _ _ Hnd Heff Hall)
    as (Hnew & _ & _ & _ & Hwritten & _).
  pose proof Heff as (_ & Hw' & Hc').
  assert (Hnd' : NoDup (map _id (patients_col w')))
    by (by rewrite Hc', apply_writes_ids).
  assert (Hframe : Forall2 (only_marker_set period today_str) (patients_col w)
                     (patients_col w'))
    by (rewrite Hc'; apply apply_writes_frame).
  assert (Hunmarked : ∀ a, In a atts →
            ∃ q, In q (patients_col w) ∧ _id q = att_for a
                 ∧ marked period today_str q = false).
  { intros a Ha.
    assert (Hin : att_for a ∈ map att_for atts)
      by (apply list_elem_of_In, in_map_iff; eauto).
    eapply elem_of_sublist in Hin; [|exact Hsub].
    apply list_elem_of_In, in_map_iff in Hin as (q & Hid & [Hq Hk]%filter_In).
    exists q. split; [done|]. split; [done|]. by apply negb_true_iff. }
  exists (ws ++ map (marker_write period today_str) (List.filter att_ok atts)).
  split; [done|]. split; [by rewrite Hw', Hws, app_assoc|]. split.
  - rewrite map_app. apply NoDup_app. split; [done|]. split.
    + intros k Hk Hk'.
      apply list_elem_of_In, in_map_iff in Hk as (x & <- & Hx).
      apply list_elem_of_In, in_map_iff in Hk' as (y & Hxy & Hy).
      apply in_map_iff in Hy as (a & <- & [Ha _]%filter_In).
      destruct (Hunmarked a Ha) as (q & Hq & Hid & Hk).
      injection Hxy as Hid' Hf. simpl in Hid', Hf.
      assert (Hm : doc q !! w_field x = Some (VStr today_str))
        by (apply (Hheld x q Hx Hq); congruence).
      rewrite <- Hf in Hm. apply marked_of_field in Hm. congruence.
    + assert (E : map write_key
                    (map (marker_write period today_str) (List.filter att_ok atts))
                  = map (λ i, (i, marker period))
                      (map att_for (List.filter att_ok atts)))
        by (by rewrite !map_map).
      rewrite E. apply NoDup_pair_right.
      assert (Hs : sublist (map att_for (List.filter att_ok atts))
                     (map _id (patients_col w)))
        by (etrans; [apply filter_ok_sublist|exact Hall]).
      exact (sublist_NoDup _ _ Hnd Hs).
  - intros x q' [Hx | Hx]%in_app_or Hq' Hid.
    + destruct (Forall2_In_r _ _ _ _ Hframe Hq') as (q & Hq & Hid' & Hsame & Hmark).
      assert (Hm : doc q !! w_field x = Some (VStr today_str))
        by (apply (Hheld x q Hx Hq); congruence).
      destruct (decide (w_field x = marker period)) as [E | E].
      * rewrite E in *. destruct Hmark as [-> | ->]; done.
      * by rewrite (Hsame _ E).
    + apply in_map_iff in Hx as (a & <- & [Ha Hok]%filter_In). simpl in *.
      destruct (Hunmarked a Ha) as (q & Hq & Hida & _).
      assert (Hin : In (set_field (marker period) (VStr today_str) q)
                      (patients_col w')).
      { apply Hwritten; [done|]. exists a. by rewrite Hnew. }
      assert (q' = set_field (marker period) (VStr today_str) q) as ->.
      { apply (ids_injective (patients_col w')); try done. simpl. congruence. }
      unfold set_field. simpl. apply lookup_insert_eq.
Qed.

Lemma day_runs w0 runs : ∀ w ws,
  NoDup (map _id (patients_col w)) →
  writes w = writes w0 ++ ws →
  NoDup (map write_key ws) →
  (∀ x q, In x ws → In q (patients_col w) → _id q = w_id x →
          doc q !! w_field x = Some (VStr today_str)) →
  ∃ ws',
    writes (foldl (run_of net today_str) w runs) = writes w0 ++ ws'
    ∧ NoDup (map write_key ws').
Proof.
  induction runs as [|r runs IH]; intros w ws Hnd Hws Hkeys Hheld; simpl.
  - by exists ws.
  - destruct (day_step w0 w ws r Hnd Hws Hkeys Hheld)
      as (ws1 & Hnd1 & Hws1 & Hkeys1 & Hheld1).
    exact (IH _ ws1 Hnd1 Hws1 Hkeys1 Hheld1).
Qed.

(** Over any runs, the writes follow the successful attempts one for one. *)
Lemma day_counts runs : ∀ w,
  map w_id (new_writes w (foldl (run_of net today_str) w runs))
  = map att_for
      (List.filter att_ok
         (new_attempts w (foldl (run_of net today_str) w runs))).
Proof.
  assert (H : ∀ w, ∃ atts ws,
            outbox (foldl (run_of net today_str) w runs) = outbox w ++ atts
            ∧ writes (foldl (run_of net today_str) w runs) = writes w ++ ws
            ∧ map w_id ws = map att_for (List.filter att_ok atts)).
  { induction runs as [|r runs IH]; intros w; simpl.
    - exists [], []. by rewrite !app_nil_r.
    - destruct (run_of_respects r w) as (atts1 & (Ho1 & Hw1 & _) & _).
      destruct (IH (run_of net today_str w r)) as (atts & ws & Ho & Hw & Hids).
      exists (atts1 ++ atts),
        (map (marker_write (run_period r) today_str) (List.filter att_ok atts1)
         ++ ws).
      rewrite Ho, Ho1, Hw, Hw1, <- !app_assoc. split; [done|]. split; [done|].
      rewrite List.filter_app, !map_app, Hids, map_map. done. }
  intros w. destruct (H w) as (atts & ws & Ho & Hw & Hids).
  unfold new_writes, new_attempts. by rewrite Ho, Hw, !drop_app_length.
Qed.

(** X18.  Over a day of runs, of either dispatcher, for whatever periods
    and in whatever order, no record is marked twice for one period: the
    writes are the markers of the successful sends, one for one, and no two
    of them are for the same record and the same marker.  So no record gets
    two reminders for one period on one day. *)
Theorem one_reminder_per_period_and_day runs w :
  NoDup (map _id (patients_col w)) →
  NoDup (map write_key (new_writes w (foldl (run_of net today_str) w runs)))
  ∧ map w_id (new_writes w (foldl (run_of net today_str) w runs))
    = map att_for
        (List.filter att_ok
           (new_attempts w (foldl (run_of net today_str) w runs))).
Proof.
  intros Hnd. split; [|apply day_counts].
  destruct (day_runs w runs w [] Hnd) as (ws & Hws & Hkeys).
  - by rewrite app_nil_r.
  - constructor.
  - by intros x q [].
  - unfold new_writes. by rewrite Hws, drop_app_length.
Qed.

End OneADay.

Section OneADayInstances.

Lemma one_reminder_witness :
  NoDup (map write_key
           (new_writes (empty_world sample_col)
              (foldl (run_of sample_net "2024-01-01") (empty_world sample_col)
                 [Batch "morning"; AppJob "morning"; Batch "night";
                  AppJob "morning"])))
  ∧ map w_id
      (new_writes (empty_world sample_col)
         (foldl (run_of sample_net "2024-01-01") (empty_world sample_col)
            [Batch "morning"; AppJob "morning"; Batch "night";
             AppJob "morning"]))
    = map att_for
        (List.filter att_ok
           (new_attempts (empty_world sample_col)
              (foldl (run_of sample_net "2024-01-01") (empty_world sample_col)
                 [Batch "morning"; AppJob "morning"; Batch "night";
                  AppJob "morning"]))).
Proof.
  apply (one_reminder_per_period_and_day sample_net "2024-01-01"
           [Batch "morning"; AppJob "morning"; Batch "night"; AppJob "morning"]
           (empty_world sample_col) sample_col_ids).
Defined.

End OneADayInstances.

(** ** The routes *)

Section Accounts.

Variable generate_password_hash : string → string.

Local Open Scope list_scope.

Lemma field_values_snoc k users u :
  field_values k (users ++ [u])
  = field_values k users ++ match u !! k with Some v => [v] | None => [] end.
Proof.
  unfold field_values. rewrite omap_app. simpl. by destruct (u !! k).
Qed.

Lemma find_one_user_none users username email :
  Routes.find_one_user users username email = None →
  (VStr username ∉ field_values "username" users)
  ∧ (VStr email ∉ field_values "email" users).
Proof.
  unfold Routes.find_one_user, field_values. intros Hnone.
  assert (Hall : ∀ u, In u users →
            Routes.field_is u "username" username = false
            ∧ Routes.field_is u "email" email = false).
  { intros u Hu. apply orb_false_iff.
    exact (find_none _ _ Hnone u Hu). }
  split; intros (u & Hu & Hk)%list_elem_of_omap;
    apply list_elem_of_In in Hu; destruct (Hall u Hu) as [H1 H2].
  - unfold Routes.field_is in H1. rewrite Hk in H1.
    by rewrite String.eqb_refl in H1.
  - unfold Routes.field_is in H2. rewrite Hk in H2.
    by rewrite String.eqb_refl in H2.
Qed.

Lemma find_one_user_last users username email hashed username' email' :
  username' = username ∨ email' = email →
  is_Some (Routes.find_one_user
             (users ++ [Routes.account username email hashed])
             username' email').
Proof.
  intros Hsame. unfold Routes.find_one_user.
  assert (Hhit : Routes.field_is (Routes.account username email hashed)
                   "username" username'
                 || Routes.field_is (Routes.account username email hashed)
                      "email" email' = true).
  { unfold Routes.field_is, Routes.account. apply orb_true_iff.
    destruct Hsame as [-> | ->]; [left|right].
    - rewrite lookup_insert_eq. apply String.eqb_refl.
    - rewrite lookup_insert_ne by done. rewrite lookup_insert_eq.
      apply String.eqb_refl. }
  induction users as [|u users IH]; cbn [app List.find].
  - rewrite Hhit. by eexists.
  - destruct (Routes.field_is u "username" username'
              || Routes.field_is u "email" email'); [by eexists|exact IH].
Qed.

Lemma account_normal_form s :
  PyStr.strip (PyStr.strip s) = PyStr.strip s
  ∧ PyStr.lower (PyStr.strip (PyStr.lower (PyStr.strip s)))
    = PyStr.lower (PyStr.strip s).
Proof.
  split; [apply strip_idem|].
  by rewrite <- (strip_lower (PyStr.lower (PyStr.strip s))), lower_idem,
    strip_lower, strip_idem.
Qed.

Lemma truthy_not_empty s : PyStr.truthy s = true → s ≠ "".
Proof.
  unfold PyStr.truthy. intros H ->. by rewrite String.eqb_refl in H.
Qed.

(** What a request that is accepted was, and what it leaves. *)
Lemma register_accepted st data r st' :
  Routes.register generate_password_hash st data = (r, st') →
  Routes.status r = 200 →
  ∃ users username email pw,
    st = Some users
    ∧ Routes.requested_username data = Ok username
    ∧ Routes.requested_email data = Ok email
    ∧ PyStr.truthy username = true ∧ PyStr.truthy email = true
    ∧ py_or (default VNone (data !! "password")) (VStr "") = VStr pw
    ∧ PyStr.truthy pw = true
    ∧ Routes.find_one_user users username email = None
    ∧ st' = Some (users ++ [Routes.account username email
                              (generate_password_hash pw)]).
Proof.
  unfold Routes.register, Routes.register_try.
  destruct (Routes.requested_username data) as [username|e];
    [|by intros [= <- <-]].
  destruct (Routes.requested_email data) as [email|e]; [|by intros [= <- <-]].
  destruct (PyStr.truthy username) eqn:Hu; simpl; [|by intros [= <- <-]].
  destruct (PyStr.truthy email) eqn:He; simpl; [|by intros [= <- <-]].
  destruct (truthy (py_or _ _)) eqn:Hp; simpl; [|by intros [= <- <-]].
  destruct st as [users|]; [|by intros [= <- <-]].
  destruct (Routes.find_one_user users username email) eqn:Hf;
    [by intros [= <- <-]|].
  destruct (py_or _ _) as [| | |pw] eqn:Hpw; try (by intros [= <- <-]).
  intros [= <- <-] _. exists users, username, email, pw. by repeat split.
Qed.

(** A request that is not accepted leaves the collection as it is. *)
Lemma register_refused st data :
  Routes.status (fst (Routes.register generate_password_hash st data)) ≠ 200 →
  snd (Routes.register generate_password_hash st data) = st.
Proof.
  unfold Routes.register, Routes.register_try.
  destruct (Routes.requested_username data) as [username|e]; [|done].
  destruct (Routes.requested_email data) as [email|e]; [|done].
  destruct (_ || _); [done|]. destruct st as [users|]; [|done].
  destruct (Routes.find_one_user users username email); [done|].
  by destruct (py_or _ _).
Qed.

Lemma register_step users data :
  accounts_distinct users →
  ∃ users',
    snd (Routes.register generate_password_hash (Some users) data) = Some users'
    ∧ accounts_distinct users'
    ∧ (users' = users ∨ ∃ u, users' = users ++ [u] ∧ registered_account u).
Proof.
  intros Hd.
  destruct (Routes.register generate_password_hash (Some users) data)
    as [r st'] eqn:Hreg.
  destruct (decide (Routes.status r = 200)) as [Hok|Hno].
  - destruct (register_accepted _ _ _ _ Hreg Hok)
      as (users0 & username & email & pw & [= <-] & Hn & He & Hnt & Het & _ & _
          & Hf & ->).
    eexists. split; [reflexivity|].
    apply find_one_user_none in Hf as [Hfn Hfe]. destruct Hd as [Hdn Hde].
    split.
    + split; rewrite field_values_snoc; unfold Routes.account.
      * rewrite lookup_insert_eq. apply NoDup_app. split; [done|].
        split; [|apply NoDup_singleton].
        intros v Hv ->%list_elem_of_singleton. done.
      * rewrite lookup_insert_ne by done. rewrite lookup_insert_eq.
        apply NoDup_app. split; [done|]. split; [|apply NoDup_singleton].
        intros v Hv ->%list_elem_of_singleton. done.
    + right. eexists. split; [reflexivity|].
      exists username, email, (generate_password_hash pw).
      split; [done|].
      unfold Routes.requested_username in Hn.
      unfold Routes.requested_email in He.
      destruct (Routes.text_or_empty data "username") as [s1|]; [|done].
      destruct (Routes.text_or_empty data "email") as [s2|]; [|done].
      injection Hn as <-. injection He as <-.
      destruct (account_normal_form s1) as [H1 _].
      destruct (account_normal_form s2) as [_ H2].
      split; [by apply truthy_not_empty|]. split; [done|].
      split; [by apply truthy_not_empty|done].
  - pose proof (register_refused (Some users) data) as Hsame.
    rewrite Hreg in Hsame. simpl in Hsame. rewrite (Hsame Hno).
    exists users. split; [done|]. split; [done|]. by left.
Qed.

(** X12.  However many requests [register] serves, with whatever data, no
    two accounts ever share a user name or an address: the accounts that
    were there stay as they are, and each account it adds has a name
    without surrounding blanks and a lower-case address, neither empty. *)
Theorem register_keeps_accounts_distinct users requests :
  accounts_distinct users →
  ∃ users',
    register_all generate_password_hash (Some users) requests = Some users'
    ∧ accounts_distinct users'
    ∧ users `prefix_of` users'
    ∧ Forall registered_account (drop (length users) users').
Proof.
  revert users. induction requests as [|data requests IH]; intros users Hd.
  - exists users. split; [done|]. split; [done|]. split; [done|].
    by rewrite drop_all.
  - change (register_all generate_password_hash (Some users) (data :: requests))
      with (register_all generate_password_hash
              (snd (Routes.register generate_password_hash (Some users) data))
              requests).
    destruct (register_step users data Hd) as (users1 & -> & Hd1 & Hstep).
    destruct (IH users1 Hd1) as (users' & -> & Hd' & Hpre & Hnew).
    exists users'. split; [done|]. split; [done|].
    destruct Hstep as [-> | (u & -> & Hu)]; [done|].
    split; [by eapply prefix_app_l|].
    destruct Hpre as [tl ->]. rewrite drop_app_length in Hnew.
    rewrite <- app_assoc, drop_app_length. by constructor.
Qed.

(** X13.  A request [register] has accepted cannot be accepted again: sent
    once more it is answered 400 "already exists", and so is refused every
    later request for the same name, or for the same address, however
    padded and in whatever case; a refused request changes nothing. *)
Theorem register_again_is_refused st data r st' :
  Routes.register generate_password_hash st data = (r, st') →
  Routes.status r = 200 →
  Routes.register generate_password_hash st' data = (already_exists, st')
  ∧ ∀ data',
      Routes.requested_username data' = Routes.requested_username data
      ∨ Routes.requested_email data' = Routes.requested_email data →
      Routes.status (fst (Routes.register generate_password_hash st' data'))
      ≠ 200
      ∧ snd (Routes.register generate_password_hash st' data') = st'.
Proof.
  intros Hreg Hok.
  destruct (register_accepted _ _ _ _ Hreg Hok)
    as (users & username & email & pw & -> & Hn & He & Hnt & Het & Hpw & Hpt
        & Hf & ->).
  split.
  - unfold Routes.register, Routes.register_try. rewrite Hn, He, Hnt, Het, Hpw.
    simpl. rewrite Hpt. simpl.
    destruct (find_one_user_last users username email
                (generate_password_hash pw) username email (or_introl eq_refl))
      as [u ->].
    done.
  - intros data' Hsame.
    assert (Hst : Routes.status
                    (fst (Routes.register generate_password_hash
                            (Some (users ++ [Routes.account username email
                                               (generate_password_hash pw)]))
                            data')) ≠ 200).
    { unfold Routes.register, Routes.register_try. rewrite Hn, He in Hsame.
      destruct (Routes.requested_username data') as [username'|e]; [|done].
      destruct (Routes.requested_email data') as [email'|e]; [|done].
      destruct (_ || _); [done|].
      destruct (find_one_user_last users username email
                  (generate_password_hash pw) username' email') as [u ->];
        [|done].
      destruct Hsame as [[= ->] | [= ->]]; auto. }
    split; [exact Hst|]. by apply register_refused.
Qed.

End Accounts.

Section AccountsInstances.

Lemma register_distinct_witness :
  ∃ users',
    register_all (λ pw, "hash:" ++ pw)%string (Some [])
      [ {[ "username" := VStr " asha "; "email" := VStr "Asha@Example.org";
           "password" := VStr "s3cret" ]};
        {[ "username" := VStr "asha"; "email" := VStr "other@example.org";
           "password" := VStr "pw" ]} ]
    = Some users'
    ∧ accounts_distinct users'
    ∧ [] `prefix_of` users'
    ∧ Forall registered_account (drop (length (A := gmap string value) []) users').
Proof.
  apply (register_keeps_accounts_distinct (λ pw, "hash:" ++ pw)%string []).
  split; constructor.
Defined.

Lemma register_again_witness :
  Routes.register (λ pw, "hash:" ++ pw)%string
    (Some [Routes.account "asha" "asha@example.org" "hash:s3cret"])
    {[ "username" := VStr " asha "; "email" := VStr "Asha@Example.org";
       "password" := VStr "s3cret" ]}
  = (already_exists,
     Some [Routes.account "asha" "asha@example.org" "hash:s3cret"])
  ∧ ∀ data',
      Routes.requested_username data'
      = Routes.requested_username
          {[ "username" := VStr " asha "; "email" := VStr "Asha@Example.org";
             "password" := VStr "s3cret" ]}
      ∨ Routes.requested_email data'
        = Routes.requested_email
            {[ "username" := VStr " asha "; "email" := VStr "Asha@Example.org";
               "password" := VStr "s3cret" ]} →
      Routes.status
        (fst (Routes.register (λ pw, "hash:" ++ pw)%string
                (Some [Routes.account "asha" "asha@example.org" "hash:s3cret"])
                data'))
      ≠ 200
      ∧ snd (Routes.register (λ pw, "hash:" ++ pw)%string
               (Some [Routes.account "asha" "asha@example.org" "hash:s3cret"])
               data')
        = Some [Routes.account "asha" "asha@example.org" "hash:s3cret"].
Proof.
  apply (register_again_is_refused (λ pw, "hash:" ++ pw)%string (Some [])
           {[ "username" := VStr " asha "; "email" := VStr "Asha@Example.org";
              "password" := VStr "s3cret" ]}
           {| Routes.status := 200; Routes.body := Routes.BRedirect "/dashboard" |}
           (Some [Routes.account "asha" "asha@example.org" "hash:s3cret"])).
  - vm_compute. reflexivity.
  - reflexivity.
Defined.

End AccountsInstances.

Section RecommendRoute.

Variable sk : Sklearn.
Variable recommender : option (list Row).
Variable net : Smtp.

Local Open Scope list_scope.

(** The route, by the answer of the matcher. *)
Lemma recommend_route_run data w :
  Routes.recommend sk recommender net data w
  = match advice_for sk recommender data with
    | Raise e => (Ok recommendation_failed, w)
    | Ok rec =>
        let i := Routes.fresh_id (patients_col w) in
        let m := Routes.recommendation_mail data rec in
        (Ok (if net (outbox w) m then advice_sent rec
             else recommendation_failed),
         {| patients_col :=
              patients_col w
              ++ [{| _id := i; doc := Routes.stored_record data rec |}];
            outbox :=
              outbox w
              ++ [{| att_for := i; att_mail := m; att_ok := net (outbox w) m |}];
            writes := writes w; log := log w |})
    end.
Proof.
  unfold Routes.recommend, advice_for, try_except, mbind, M_bind, Routes.lift.
  destruct (Routes.text_or_empty data "disease") as [disease|e]; [|done].
  destruct recommender as [df|]; [|done].
  destruct (Recommender.recommend sk df (PyStr.strip disease)) as [rec|e];
    [|done].
  unfold Routes.insert_one, smtp_send, mret, M_ret. simpl.
  by destruct (net (outbox w) (Routes.recommendation_mail data rec)).
Qed.

Lemma stored_record_fields data rec :
  Routes.stored_record data rec !! "email"
  = Some (default VNone (data !! "email"))
  ∧ Routes.stored_record data rec !! "time_to_take"
    = Some (VStr (out_time_to_take rec)).
Proof.
  unfold Routes.stored_record. split.
  - do 3 (rewrite lookup_insert_ne by done). by rewrite lookup_insert_eq.
  - do 7 (rewrite lookup_insert_ne by done). by rewrite lookup_singleton_eq.
Qed.

Lemma stored_record_readable i data rec :
  app_readable {| _id := i; doc := Routes.stored_record data rec |} = true.
Proof.
  destruct (stored_record_fields data rec) as [He Ht].
  unfold app_readable, app_classifiable, app_timing, get_or. simpl.
  by rewrite Ht, He.
Qed.

Lemma readable_frame period today_str q q' :
  only_marker_set period today_str q q' → app_readable q' = app_readable q.
Proof.
  intros (_ & Hk & _).
  unfold app_readable, app_classifiable, app_timing, get_or.
  rewrite (Hk "time_to_take"), (Hk "email");
    (done || (unfold marker; simpl; discriminate)).
Qed.

Lemma readable_processable pattern period today_str q :
  app_readable q = true → app_processable pattern period today_str q = true.
Proof.
  unfold app_readable, app_processable.
  intros [-> ->]%andb_true_iff. simpl. apply orb_true_r.
Qed.

Lemma happen_keeps_readable e w :
  Forall (λ q, app_readable q = true) (patients_col w) →
  Forall (λ q, app_readable q = true)
    (patients_col (happen sk recommender net w e)).
Proof.
  intros Hw. destruct e as [data | today_str period]; simpl.
  - rewrite recommend_route_run.
    destruct (advice_for sk recommender data) as [rec|e]; [|done].
    simpl. apply Forall_app. split; [done|].
    constructor; [apply stored_record_readable|constructor].
  - destruct (run_reminder_job_respects_markers net period today_str w)
      as (atts & (_ & _ & ->) & _).
    pose proof (apply_writes_frame period today_str atts (patients_col w))
      as Hframe.
    induction Hframe as [|q q' col col' Hq _ IH]; [constructor|].
    apply Forall_cons in Hw as [Hq0 Hw].
    constructor; [by rewrite (readable_frame _ _ _ _ Hq)|by apply IH].
Qed.

(** X14.  The job of app.py reads what [recommend()] writes: after any
    succession of requests for a recommendation and of runs of the job,
    from a collection of records it can read, a run for a period of its
    table comes to its end and returns its count.  The store is never left
    with a record the job would stop at. *)
Theorem reminder_job_gets_through_stored_records events w today_str period pattern :
  Forall (λ q, app_readable q = true) (patients_col w) →
  App.patterns !! period = Some pattern →
  ∃ n w',
    App.run_reminder_job net today_str period
      (foldl (happen sk recommender net) w events)
    = (Ok n, w').
Proof.
  intros Hw Hpat.
  assert (Hfinal : Forall (λ q, app_readable q = true)
                     (patients_col (foldl (happen sk recommender net) w events))).
  { revert w Hw. induction events as [|e events IH]; intros w Hw; [done|].
    simpl. apply IH. by apply happen_keeps_readable. }
  set (w1 := foldl (happen sk recommender net) w events) in *.
  assert (Hproc : Forall (λ q, app_processable pattern period today_str q = true)
                    (patients_col w1)).
  { eapply Forall_impl; [exact Hfinal|].
    intros q. apply readable_processable. }
  unfold App.run_reminder_job, mbind, M_bind, find_all.
  destruct (job_loop_processable net period today_str pattern Hpat _ Hproc 0 w1)
    as (atts & lines & w' & -> & _).
  simpl. by eexists _, _.
Qed.



End RecommendRoute.

Section RouteInstances.

Lemma stored_records_witness :
  ∃ n w',
    App.run_reminder_job sample_net "2024-01-02" "morning"
      (foldl (happen sample_sklearn (Some sample_sheet) sample_net)
         (empty_world [])
         [ Recommend {[ "patient_name" := VStr "Asha";
                        "email" := VStr "asha@example.org";
                        "disease" := VStr " Diabetes " ]};
           Reminder "2024-01-01" "morning";
           Recommend ∅ ])
    = (Ok n, w').
Proof.
  apply (reminder_job_gets_through_stored_records sample_sklearn
           (Some sample_sheet) sample_net
           [ Recommend {[ "patient_name" := VStr "Asha";
                          "email" := VStr "asha@example.org";
                          "disease" := VStr " Diabetes " ]};
             Reminder "2024-01-01" "morning";
             Recommend ∅ ]
           (empty_world []) "2024-01-02" "morning" "morning|am|breakfast").
  - constructor.
  - reflexivity.
Defined.


End RouteInstances.
